(** * apex_launchtest: the test runner (apex_runner.py)

    A shallow embedding of [_RunnerWorker] and [ApexRunner] and the
    properties of the runner that its specification states.

    Python dictionaries with string keys are finite maps ([gmap string _]),
    byte strings are [list byte], exceptions are values of [exception]
    carried by the left injection of a sum, and the two threads of a run
    are an interleaving transition system whose labels are the atomic
    statements of both threads and the moves of their environment. *)

From Stdlib Require Import ZArith Lia Ascii String.
From Stdlib.Strings Require Import Byte.
From stdpp Require Import base option list strings gmap pretty.

(** ** Exceptions and results *)

(** The exception classes the runner can meet.  [TypeError] carries what its
    message starts with: the [__name__] of the function whose parameters do
    not take the arguments, or "unsupported callable" when [inspect] finds
    no signature; [AttributeError] the missing attribute; any other
    exception, raised by code the runner only calls, is [OtherError] with
    its class name. *)
Inductive exception :=
  | TypeError (message : string)
  | KeyError
  | UnicodeDecodeError
  | AttributeError (attr : string)
  | OtherError (cls : string).

Definition class_name (e : exception) : string :=
  match e with
  | TypeError _ => "TypeError"
  | KeyError => "KeyError"
  | UnicodeDecodeError => "UnicodeDecodeError"
  | AttributeError _ => "AttributeError"
  | OtherError cls => cls
  end.

(** A computation that returns or raises. *)
Definition py (A : Type) : Type := exception + A.

Definition raise {A} (e : exception) : py A := inl e.

#[global] Instance py_ret : MRet py := fun A a => inr a.
#[global] Instance py_bind : MBind py := fun A B k c =>
  match c with
  | inl e => inl e
  | inr a => k a
  end.

(** What a test suite yields: the [TestResult] the unittest runner builds
    (kept as its counters), or [FailResult()], the always-failing result of
    test_result.py. *)
Inductive result :=
  | FailResult
  | TestResult (testsRun failures errors : nat).

(** ** Values handed to the tests *)

(** The values the runner binds.  [ActiveProcInfoHandler] and
    [ActiveIoHandler] are the live accumulator objects [proc_info] and
    [proc_output]; [ProcInfoHandler] and [IoHandler] are the stores they
    wrap, reached as [proc_info._proc_info_handler] and
    [proc_output._io_handler].  [Dict] is a dictionary of strings
    ([test_args]) and [Opaque] any value a test description put in its
    context. *)
Inductive value :=
  | ActiveProcInfoHandler
  | ProcInfoHandler
  | ActiveIoHandler
  | IoHandler
  | Dict (d : gmap string string)
  | Opaque (n : nat).

(** [proc_info._proc_info_handler] and [proc_output._io_handler]. *)
Definition _proc_info_handler (v : value) : value :=
  match v with
  | ActiveProcInfoHandler => ProcInfoHandler
  | _ => v
  end.

Definition _io_handler (v : value) : value :=
  match v with
  | ActiveIoHandler => IoHandler
  | _ => v
  end.

(** ** Run definitions *)

(** What [inspect.getfullargspec] returns: the positional-or-keyword
    parameters, how many of the last ones have a default, whether there is
    a [*args] and a [**kwargs], the keyword-only parameters and those of
    them with a default. *)
Record FullArgSpec := ArgSpec {
  args : list string;
  num_defaults : nat;
  varargs : bool;
  varkw : bool;
  kwonlyargs : list string;
  kwonlydefaults : list string
}.

(** Whether parameters take [given] positional arguments and nothing else,
    as Python binds the arguments of a call: no required positional
    parameter is left without a value, every argument has a parameter or a
    [*args] to go to, and every keyword-only parameter has a default. *)
Definition binds (spec : FullArgSpec) (given : nat) : bool :=
  bool_decide (length (args spec) - num_defaults spec ≤ given)
  && (bool_decide (given ≤ length (args spec)) || varargs spec)
  && forallb (fun kwarg => bool_decide (kwarg ∈ kwonlydefaults spec))
       (kwonlyargs spec).

(** The object a run definition has as its [test_description_function].

    [Function] is a function or a bound method (a [def] or a [lambda]):
    its [__name__], its parameters, whether it is bound to an instance
    (which then is the first argument of every call), and what its body
    does when it is called with the readiness callback: the context it
    returns beside the launch description, or the exception it raises.

    [Object] is any other object, a [functools.partial], an instance with a
    [__call__], a class, a builtin, or no callable at all: the parameters
    [inspect] reads from it if it finds a signature (for an instance or a
    class, those of [__call__] or [__init__] with their [self]), its
    [__name__] if it has one, whether [inspect.ismethod] holds of it, and
    what calling it with the readiness callback does. *)
Inductive py_callable :=
  | Function (name : string) (spec : FullArgSpec) (is_bound_method : bool)
      (body : py (gmap string value))
  | Object (spec : option FullArgSpec) (name : option string)
      (is_bound_method : bool) (called : py (gmap string value)).

(** [inspect.getfullargspec(func)]: it raises a [TypeError] when it finds
    no signature. *)
Definition getfullargspec (func : py_callable) : py FullArgSpec :=
  match func with
  | Function _ spec _ _ | Object (Some spec) _ _ _ => mret spec
  | Object None _ _ _ => raise (TypeError "unsupported callable")
  end.

(** [func.__name__]. *)
Definition __name__ (func : py_callable) : py string :=
  match func with
  | Function name _ _ _ | Object _ (Some name) _ _ => mret name
  | Object _ None _ _ => raise (AttributeError "__name__")
  end.

(** [ismethod(func) and func.__self__ is not None]. *)
Definition ismethod (func : py_callable) : bool :=
  match func with
  | Function _ _ is_bound_method _ | Object _ _ is_bound_method _ =>
      is_bound_method
  end.

(** [inspect.getcallargs(func, lambda: None)] of Python's standard library:
    it reads the parameters and the [__name__] of [func], in this order,
    and makes the three checks of the library in its order: too many
    positional arguments, a required positional parameter left unbound, a
    required keyword-only parameter left unbound.  It returns the names it
    bound. *)
Definition getcallargs (func : py_callable) : py (list string) :=
  spec ← getfullargspec func;
  f_name ← __name__ func;
  let num_pos := if ismethod func then 2 else 1 in
  let num_args := length (args spec) in
  if bool_decide (num_args < num_pos) && negb (varargs spec)
  then raise (TypeError f_name)
  else if bool_decide (num_pos < num_args - num_defaults spec)
  then raise (TypeError f_name)
  else if bool_decide (Exists (fun kwarg => kwarg ∉ kwonlydefaults spec)
                         (kwonlyargs spec))
  then raise (TypeError f_name)
  else mret (args spec ++ kwonlyargs spec).

(** [func(ready_fn)]: a function whose parameters do not take the single
    argument raises the [TypeError] of the call, and its body does not
    run. *)
Definition call (func : py_callable) : py (gmap string value) :=
  match func with
  | Function name spec is_bound_method body =>
      if binds spec (if is_bound_method then 2 else 1)
      then body
      else raise (TypeError name)
  | Object _ _ _ called => called
  end.

(** The two suites of a run definition. *)
Inductive suite := pre_shutdown_tests | post_shutdown_tests.

(** A run definition, as far as the runner uses it: the object that
    generates the launch description, and the method [bind], which the
    runner only calls, with what it answers to a call:
    [bind tests injected_attributes injected_args]. *)
Record TestRun := {
  test_description_function : py_callable;
  bind : suite → gmap string value → gmap string value → py unit
}.

(** Modelled from the spec: [TestRun.normalized_test_description] of
    loader.py, whose source is not part of the slice; the spec has the
    coordinator invoke the description-generating function with the
    readiness callback, which returns the process set and the context
    mapping.  The process set is opaque to the runner; the context is what
    it reads. *)
Definition normalized_test_description (run : TestRun)
  : py (gmap string value) :=
  call (test_description_function run).

(** What [validate] asks of a description function: that [inspect] finds
    its parameters and its [__name__], and that the parameters take the
    readiness callback as the single argument (after the instance, for a
    bound method). *)
Definition accepts_single_argument (func : py_callable) : bool :=
  match func with
  | Function _ spec is_bound_method _
  | Object (Some spec) (Some _) is_bound_method _ =>
      binds spec (if is_bound_method then 2 else 1)
  | Object _ _ _ _ => false
  end.

(** ** Process events, accumulators and printing *)

(** The event of a process exit ([launch.events.process.ProcessExited]) and
    of a chunk of output ([ProcessIO]), with the attributes the runner
    reads; [action] identifies the launch action that started the process. *)
Record ProcessExited := {
  action : nat;
  process_name : string;
  returncode : Z
}.

Record ProcessIO := {
  io_action : nat;
  text : list byte
}.

(** Modelled from the spec: the process-info accumulator of
    proc_info_handler.py, whose source is not part of the slice; the spec
    calls it an append-only log of process-exit records.  Iterating over it
    yields the records in the order of their arrival. *)
Definition proc_info_append (info : ProcessExited) (log : list ProcessExited)
  : list ProcessExited := log ++ [info].

(** Modelled from the spec: the process-output accumulator of io_handler.py,
    whose source is not part of the slice; the spec calls it an append-only
    log of output lines queryable by process identity.  Indexing it with a
    launch action yields the lines of that action in order, and raises
    [KeyError] when there are none, which is the case the runner catches
    ("Process generated no output"). *)
Definition proc_output_append (io : ProcessIO) (log : list ProcessIO)
  : list ProcessIO := log ++ [io].

Definition proc_output_getitem (log : list ProcessIO) (key : nat)
  : py (list ProcessIO) :=
  match filter (fun io => io_action io = key) log with
  | [] => raise KeyError
  | lines => mret lines
  end.

(** [bytes.decode('ascii')]: every byte must be below 128. *)
Definition is_ascii (bs : list byte) : bool :=
  forallb (fun b => (Byte.to_N b <? 128)%N) bs.

Definition decode_ascii (bs : list byte) : py string :=
  if is_ascii bs
  then mret (string_of_list_byte bs)
  else raise UnicodeDecodeError.

(** Code that prints: the lines written to standard output so far, and
    whether it returned or raised after them. *)
Definition out (A : Type) : Type := (list string * py A)%type.

#[global] Instance out_ret : MRet out := fun A a => ([], inr a).
#[global] Instance out_bind : MBind out := fun A B k c =>
  match c.2 with
  | inl e => (c.1, inl e)
  | inr a => ((c.1 ++ (k a).1), (k a).2)
  end.

Definition print (line : string) : out unit := ([line], inr tt).
Definition lift {A} (c : py A) : out A := ([], c).

(** [try: body except KeyError: pass]. *)
Definition try_except_KeyError (body : out unit) : out unit :=
  match body.2 with
  | inl KeyError => (body.1, inr tt)
  | _ => body
  end.

(** [for x in xs: body]. *)
Fixpoint for_each {A} (xs : list A) (body : A -> out unit) : out unit :=
  match xs with
  | [] => mret tt
  | x :: rest => body x;; for_each rest body
  end.

(** A printing computation that raises nothing but [UnicodeDecodeError]. *)
Definition decode_error_only {A} (c : out A) : Prop :=
  ∀ e, c.2 = inl e → e = UnicodeDecodeError.

(** ['#' * n]. *)
Fixpoint str_mul (s : string) (n : nat) : string :=
  match n with
  | 0 => ""
  | S n => s +:+ str_mul s n
  end.

(** ** [_RunnerWorker] *)

Module _RunnerWorker.

(** *** Binding *)

(** One call of [self._test_run.bind(tests, injected_attributes=...,
    injected_args=...)]. *)
Record bind_call := BindCall {
  bound_suite : suite;
  injected_attributes : gmap string value;
  injected_args : gmap string value
}.

(** [dict(mapping, **kwargs)]: the entries of [mapping], then those of
    [kwargs], a keyword replacing an entry of the same name. *)
Definition dict (mapping kwargs : gmap string value) : gmap string value :=
  kwargs ∪ mapping.

(** Lines 76-78: [test_args = {}; for k, v in parsed: test_args[k] = v]. *)
Definition make_test_args (parsed_launch_arguments : list (string * string))
  : gmap string string :=
  foldl (fun test_args kv => <[kv.1 := kv.2]> test_args) ∅ parsed_launch_arguments.

(** Lines 80-113 of [_RunnerWorker.run]: the two calls of [bind], in order. *)
Definition bind_tests (test_context : gmap string value)
    (parsed_launch_arguments : list (string * string)) : list bind_call :=
  let proc_info := ActiveProcInfoHandler in
  let proc_output := ActiveIoHandler in
  let test_args := Dict (make_test_args parsed_launch_arguments) in
  [ BindCall pre_shutdown_tests
      {[ "proc_info" := proc_info;
         "proc_output" := proc_output;
         "test_args" := test_args ]}
      (dict test_context
         {[ "proc_info" := proc_info;
            "proc_output" := proc_output;
            "test_args" := test_args ]});
    BindCall post_shutdown_tests
      {[ "proc_info" := _proc_info_handler proc_info;
         "proc_output" := _io_handler proc_output;
         "test_args" := test_args ]}
      (dict test_context
         {[ "proc_info" := _proc_info_handler proc_info;
            "proc_output" := _io_handler proc_output;
            "test_args" := test_args ]}) ].

(** The calls of [bind] in order, as far as they go: the calls made, and
    whether they all returned or the exception of the one that raised,
    after which no other is made. *)
Fixpoint bind_each (run : TestRun) (calls : list bind_call)
  : list bind_call * py unit :=
  match calls with
  | [] => ([], mret tt)
  | call :: rest =>
      match bind run (bound_suite call) (injected_attributes call)
              (injected_args call) with
      | inl e => ([call], raise e)
      | inr _ => (call :: (bind_each run rest).1, (bind_each run rest).2)
      end
  end.

(** The accumulator handle a suite is given: the live object before
    shutdown, the store it wraps after. *)
Definition proc_info_for (s : suite) : value :=
  match s with
  | pre_shutdown_tests => ActiveProcInfoHandler
  | post_shutdown_tests => ProcInfoHandler
  end.

Definition proc_output_for (s : suite) : value :=
  match s with
  | pre_shutdown_tests => ActiveIoHandler
  | post_shutdown_tests => IoHandler
  end.

Definition reserved (k : string) : bool :=
  bool_decide (k = "proc_info" ∨ k = "proc_output" ∨ k = "test_args").

(** What the coordinator supplies to a suite under a reserved name. *)
Definition supplied (parsed_launch_arguments : list (string * string))
    (s : suite) (k : string) : option value :=
  if decide (k = "proc_info") then Some (proc_info_for s)
  else if decide (k = "proc_output") then Some (proc_output_for s)
  else if decide (k = "test_args")
       then Some (Dict (make_test_args parsed_launch_arguments))
  else None.

(** *** The diagnostic summary *)

(** [_RunnerWorker._print_process_output_summary]: lines 177-188. *)
Definition _print_process_output_summary
    (proc_info : list ProcessExited) (proc_output : list ProcessIO) : out unit :=
  let failed_procs := filter (fun proc => returncode proc ≠ 0%Z) proc_info in
  for_each failed_procs (fun process =>
    print ("Process '" +:+ process_name process +:+ "' exited with "
             +:+ pretty (returncode process));;
    print ("##### '" +:+ process_name process +:+ "' output #####");;
    try_except_KeyError (
      lines ← lift (proc_output_getitem proc_output (action process));
      for_each lines (fun io =>
        line ← lift (decode_ascii (text io));
        print line));;
    print (str_mul "#" (String.length (process_name process) + 21))).

(** What the summary is expected to hold for one failed process whose
    output decodes: the exit line, the header, the output lines, the footer. *)
Definition section_of (proc_output : list ProcessIO) (process : ProcessExited)
  : list string :=
  [ "Process '" +:+ process_name process +:+ "' exited with "
      +:+ pretty (returncode process);
    "##### '" +:+ process_name process +:+ "' output #####" ]
  ++ map (fun io => string_of_list_byte (text io))
       (filter (fun io => io_action io = action process) proc_output)
  ++ [ str_mul "#" (String.length (process_name process) + 21) ].

(** The captured lines the summary has to decode: those of the processes
    that exited with a non-zero code. *)
Definition decodable (proc_info : list ProcessExited)
    (proc_output : list ProcessIO) : Prop :=
  ∀ process io,
    process ∈ proc_info → returncode process ≠ 0%Z →
    io ∈ proc_output → io_action io = action process →
    is_ascii (text io) = true.

(** *** One run: two threads and their environment *)

(** Where the primary thread stands in [_RunnerWorker.run]. *)
Inductive main_pc :=
  | at_bind                              (* line 66: [run] entered *)
  | at_thread_start                      (* line 137 *)
  | at_service_run                       (* line 138, before the call *)
  | in_service_run                       (* blocked in [LaunchService.run] *)
  | at_check                             (* line 140 *)
  | at_early_exit                        (* line 143 *)
  | at_post_tests                        (* line 149 *)
  | at_return (inactive_results : result) (* line 154 *)
  | finished (r : py (result * result)).

(** Where the secondary thread stands in [_RunnerWorker._run_test].  The
    suite is executing while the thread is [at_tests]; [after_raise] tells
    the [finally] block whether the runner raised. *)
Inductive thread_pc :=
  | not_started
  | at_wait                              (* line 160, before the call *)
  | in_wait (deadline : nat)             (* blocked in [Event.wait] *)
  | at_timeout_print                     (* line 162 *)
  | at_timeout_shutdown                  (* line 163 *)
  | at_tests                             (* line 168 *)
  | at_finally_set (after_raise : bool)  (* line 174 *)
  | at_finally_shutdown (after_raise : bool) (* line 175 *)
  | returned.

(** The atomic moves.  A move of a thread is one statement of its code; a
    move whose effect the callee decides carries what the callee answers. *)
Inductive label :=
  (* the primary thread *)
  | main_bind                      (* lines 66-135 *)
  | main_start_thread              (* [self._test_tr.start()] *)
  | thread_start_raises (e : exception) (* ... or the call raises *)
  | main_enter_service_run         (* [self._launch_service.run()] is called *)
  | service_run_returns            (* ... and returns, shutdown being requested *)
  | service_stops                  (* ... or returns unprompted: the processes
                                      all died, or the user interrupted *)
  | service_run_raises (e : exception) (* ... or raises *)
  | main_check                     (* [self._tests_completed.wait(timeout=0)] *)
  | main_early_exit                (* lines 143-147 *)
  | main_post_tests (r : py result) (* the post-shutdown suite runs *)
  | main_return                    (* line 154 *)
  (* the secondary thread *)
  | thread_wait                    (* [self._processes_launched.wait(timeout=15)] *)
  | wait_returns (signaled : bool)
  | thread_print_timeout           (* line 162 *)
  | thread_tests (r : py result)   (* the pre-shutdown suite finishes *)
  | thread_set_completed           (* [self._tests_completed.set()] *)
  | thread_shutdown                (* [self._launch_service.shutdown()] *)
  (* the environment *)
  | ready_fn                       (* the readiness callback is invoked *)
  | tick                           (* one unit of time passes *)
  | on_exit (info : ProcessExited) (* the [OnProcessExit] handler *)
  | on_output (io : ProcessIO).    (* the [OnProcessIO] handlers *)

#[global] Instance exception_eq_dec : EqDecision exception.
Proof. solve_decision. Defined.
#[global] Instance result_eq_dec : EqDecision result.
Proof. solve_decision. Defined.
#[global] Instance ProcessExited_eq_dec : EqDecision ProcessExited.
Proof. solve_decision. Defined.
#[global] Instance byte_eq_dec : EqDecision byte := Byte.byte_eq_dec.
#[global] Instance py_eq_dec `{EqDecision A} : EqDecision (py A).
Proof. unfold py. apply _. Defined.
#[global] Instance ProcessIO_eq_dec : EqDecision ProcessIO.
Proof. solve_decision. Defined.
#[global] Instance label_eq_dec : EqDecision label.
Proof. solve_decision. Defined.

(** The timeout of the wait for the readiness signal. *)
Definition startup_timeout : nat := 15.

Record state := State {
  main : main_pc;
  thread : thread_pc;
  _processes_launched : bool;          (* the two [threading.Event]s *)
  _tests_completed : bool;
  _results : option result;            (* [None]: the attribute is not set *)
  shutdown_requested : bool;           (* of the [LaunchService] *)
  now : nat;
  bound : list bind_call;              (* the calls of [bind] made *)
  proc_info : list ProcessExited;      (* the two accumulators *)
  proc_output : list ProcessIO;
  stdout : list string
}.

Definition set_main (pc : main_pc) (s : state) : state :=
  State pc (thread s) (_processes_launched s) (_tests_completed s) (_results s)
    (shutdown_requested s) (now s) (bound s) (proc_info s) (proc_output s)
    (stdout s).

Definition set_thread (pc : thread_pc) (s : state) : state :=
  State (main s) pc (_processes_launched s) (_tests_completed s) (_results s)
    (shutdown_requested s) (now s) (bound s) (proc_info s) (proc_output s)
    (stdout s).

Definition set_processes_launched (s : state) : state :=
  State (main s) (thread s) true (_tests_completed s) (_results s)
    (shutdown_requested s) (now s) (bound s) (proc_info s) (proc_output s)
    (stdout s).

Definition set_tests_completed (s : state) : state :=
  State (main s) (thread s) (_processes_launched s) true (_results s)
    (shutdown_requested s) (now s) (bound s) (proc_info s) (proc_output s)
    (stdout s).

Definition set_results (r : result) (s : state) : state :=
  State (main s) (thread s) (_processes_launched s) (_tests_completed s) (Some r)
    (shutdown_requested s) (now s) (bound s) (proc_info s) (proc_output s)
    (stdout s).

Definition shutdown (s : state) : state :=
  State (main s) (thread s) (_processes_launched s) (_tests_completed s)
    (_results s) true (now s) (bound s) (proc_info s) (proc_output s) (stdout s).

Definition advance (s : state) : state :=
  State (main s) (thread s) (_processes_launched s) (_tests_completed s)
    (_results s) (shutdown_requested s) (S (now s)) (bound s) (proc_info s)
    (proc_output s) (stdout s).

Definition set_bound (calls : list bind_call) (s : state) : state :=
  State (main s) (thread s) (_processes_launched s) (_tests_completed s)
    (_results s) (shutdown_requested s) (now s) calls (proc_info s)
    (proc_output s) (stdout s).

Definition set_proc_info (log : list ProcessExited) (s : state) : state :=
  State (main s) (thread s) (_processes_launched s) (_tests_completed s)
    (_results s) (shutdown_requested s) (now s) (bound s) log (proc_output s)
    (stdout s).

Definition set_proc_output (log : list ProcessIO) (s : state) : state :=
  State (main s) (thread s) (_processes_launched s) (_tests_completed s)
    (_results s) (shutdown_requested s) (now s) (bound s) (proc_info s) log
    (stdout s).

Definition write (lines : list string) (s : state) : state :=
  State (main s) (thread s) (_processes_launched s) (_tests_completed s)
    (_results s) (shutdown_requested s) (now s) (bound s) (proc_info s)
    (proc_output s) (stdout s ++ lines).

(** Lines 143-147: the message, the summary, the two failing results. *)
Definition early_exit (proc_info : list ProcessExited)
    (proc_output : list ProcessIO) : out (result * result) :=
  print "Processes under test stopped before tests completed";;
  _print_process_output_summary proc_info proc_output;;
  mret (FailResult, FailResult).

(** The attributes [__init__] sets from its arguments. *)
Record t := {
  _test_run : TestRun;
  _launch_file_arguments : list string;
  debug : bool
}.

Section Worker.

(** [parse_launch_arguments] of parse_arguments.py, which the runner only
    calls: from the raw arguments to the pairs of names and values, or the
    exception it raises. *)
Variable parse_launch_arguments : list string -> py (list (string * string)).

Variable self : t.

Definition initial : state :=
  State at_bind not_started false false None false 0 [] [] [] [].

(** Lines 66-113, where [run] calls into code it does not catch the
    exceptions of: the calls of [bind] made, and whether the lines returned
    or the exception that [normalized_test_description],
    [parse_launch_arguments] or [bind] raised.  The launch description of
    lines 117-135 is put together from constructors that store their
    arguments. *)
Definition binding : list bind_call * py unit :=
  match normalized_test_description (_test_run self) with
  | inl e => ([], raise e)
  | inr test_context =>
      match parse_launch_arguments (_launch_file_arguments self) with
      | inl e => ([], raise e)
      | inr parsed_launch_arguments =>
          bind_each (_test_run self)
            (bind_tests test_context parsed_launch_arguments)
      end
  end.

(** One move from a state, [None] when the move is not possible there. *)
Definition step (l : label) (s : state) : option state :=
  match l with
  | main_bind =>
      match main s with
      | at_bind =>
          match binding.2 with
          | inr _ => Some (set_main at_thread_start (set_bound binding.1 s))
          | inl e => Some (set_main (finished (raise e)) (set_bound binding.1 s))
          end
      | _ => None
      end
  | main_start_thread =>
      match main s, thread s with
      | at_thread_start, not_started =>
          Some (set_main at_service_run (set_thread at_wait s))
      | _, _ => None
      end
  | thread_start_raises e =>
      match main s with
      | at_thread_start => Some (set_main (finished (raise e)) s)
      | _ => None
      end
  | main_enter_service_run =>
      match main s with
      | at_service_run => Some (set_main in_service_run s)
      | _ => None
      end
  | service_run_returns =>
      match main s with
      | in_service_run =>
          if shutdown_requested s then Some (set_main at_check s) else None
      | _ => None
      end
  | service_stops =>
      match main s with
      | in_service_run => Some (set_main at_check s)
      | _ => None
      end
  | service_run_raises e =>
      match main s with
      | in_service_run => Some (set_main (finished (raise e)) s)
      | _ => None
      end
  | main_check =>
      match main s with
      | at_check =>
          if negb (_tests_completed s)
          then Some (set_main at_early_exit s)
          else Some (set_main at_post_tests s)
      | _ => None
      end
  | main_early_exit =>
      match main s with
      | at_early_exit =>
          let printed := early_exit (proc_info s) (proc_output s) in
          Some (set_main (finished printed.2) (write printed.1 s))
      | _ => None
      end
  | main_post_tests r =>
      match main s with
      | at_post_tests =>
          match r with
          | inl e => Some (set_main (finished (raise e)) s)
          | inr inactive_results => Some (set_main (at_return inactive_results) s)
          end
      | _ => None
      end
  | main_return =>
      match main s with
      | at_return inactive_results =>
          match _results s with
          | Some active_results =>
              Some (set_main (finished (mret (active_results, inactive_results))) s)
          | None =>
              Some (set_main (finished (raise (AttributeError "_results"))) s)
          end
      | _ => None
      end
  | thread_wait =>
      match thread s with
      | at_wait => Some (set_thread (in_wait (now s + startup_timeout)) s)
      | _ => None
      end
  | wait_returns signaled =>
      match thread s with
      | in_wait deadline =>
          if signaled
          then if _processes_launched s
               then Some (set_thread at_tests s) else None
          else if bool_decide (deadline ≤ now s) && negb (_processes_launched s)
               then Some (set_thread at_timeout_print s) else None
      | _ => None
      end
  | thread_print_timeout =>
      match thread s with
      | at_timeout_print =>
          Some (set_thread at_timeout_shutdown
                  (write ["Timed out waiting for processes to start up"] s))
      | _ => None
      end
  | thread_tests r =>
      match thread s with
      | at_tests =>
          match r with
          | inl _ => Some (set_thread (at_finally_set true) s)
          | inr results =>
              Some (set_thread (at_finally_set false) (set_results results s))
          end
      | _ => None
      end
  | thread_set_completed =>
      match thread s with
      | at_finally_set after_raise =>
          Some (set_thread (at_finally_shutdown after_raise)
                  (set_tests_completed s))
      | _ => None
      end
  | thread_shutdown =>
      match thread s with
      | at_timeout_shutdown | at_finally_shutdown _ =>
          Some (set_thread returned (shutdown s))
      | _ => None
      end
  | ready_fn =>
      match main s with
      | at_bind => None
      | _ => Some (set_processes_launched s)
      end
  | tick => Some (advance s)
  | on_exit info =>
      match main s with
      | in_service_run =>
          Some (set_proc_info (proc_info_append info (proc_info s)) s)
      | _ => None
      end
  | on_output io =>
      match main s with
      | in_service_run =>
          Some (set_proc_output (proc_output_append io (proc_output s)) s)
      | _ => None
      end
  end.

(** The state after a sequence of moves, oldest first. *)
Fixpoint exec (tr : list label) (s : state) : option state :=
  match tr with
  | [] => Some s
  | l :: tr => s' ← step l s; exec tr s'
  end.

(** [_RunnerWorker.run] under a schedule: what it returns or raises, or
    [None] when the schedule is not one of the program or stops before
    [run] is over. *)
Definition run (schedule : list label) : option (py (result * result)) :=
  s ← exec schedule initial;
  match main s with
  | finished r => Some r
  | _ => None
  end.

(** An exception out of lines 66-138 in a run: [run] catches none of them
    and ends before its thread is started, or before the check of line
    140. *)
Definition raised_at_launch (e : exception) (tr : list label) : Prop :=
  (binding.2 = inl e ∧ main_bind ∈ tr)
  ∨ thread_start_raises e ∈ tr
  ∨ service_run_raises e ∈ tr.

End Worker.

(** *** The paths of the two threads *)

(** The moves of the secondary thread. *)
Definition of_thread (l : label) : bool :=
  match l with
  | thread_wait | wait_returns _ | thread_print_timeout | thread_tests _
  | thread_set_completed | thread_shutdown => true
  | _ => false
  end.

Definition thread_moves (tr : list label) : list label :=
  List.filter of_thread tr.
#[global] Arguments thread_moves : simpl never.

(** What [self._results] holds after the pre-shutdown suite ended with [r]:
    the assignment of line 168 does not happen when the runner raises. *)
Definition results_after (r : py result) : option result :=
  match r with
  | inl _ => None
  | inr results => Some results
  end.

Definition raised (r : py result) : bool :=
  match r with
  | inl _ => true
  | inr _ => false
  end.

(** The control flow of [_run_test]: for each place of the secondary
    thread, the moves it made to get there, with the state of the
    completion signal and of [self._results] there. *)
Inductive thread_path : thread_pc → bool → option result → list label → Prop :=
  | path_not_started :
      thread_path not_started false None []
  | path_at_wait :
      thread_path at_wait false None []
  | path_in_wait deadline :
      thread_path (in_wait deadline) false None [thread_wait]
  | path_at_timeout_print :
      thread_path at_timeout_print false None
        [thread_wait; wait_returns false]
  | path_at_timeout_shutdown :
      thread_path at_timeout_shutdown false None
        [thread_wait; wait_returns false; thread_print_timeout]
  | path_timeout_returned :
      thread_path returned false None
        [thread_wait; wait_returns false; thread_print_timeout; thread_shutdown]
  | path_at_tests :
      thread_path at_tests false None
        [thread_wait; wait_returns true]
  | path_at_finally_set r :
      thread_path (at_finally_set (raised r)) false (results_after r)
        [thread_wait; wait_returns true; thread_tests r]
  | path_at_finally_shutdown r :
      thread_path (at_finally_shutdown (raised r)) true (results_after r)
        [thread_wait; wait_returns true; thread_tests r; thread_set_completed]
  | path_tests_returned r :
      thread_path returned true (results_after r)
        [thread_wait; wait_returns true; thread_tests r; thread_set_completed;
         thread_shutdown].

(** How many times a move was made. *)
Definition occurrences (l : label) (tr : list label) : nat :=
  length (filter (fun l' => l' = l) tr).

(** *** The path of the primary thread *)

(** The moves of the primary thread. *)
Definition of_main (l : label) : bool :=
  match l with
  | main_bind | main_start_thread | thread_start_raises _
  | main_enter_service_run | service_run_returns | service_stops
  | service_run_raises _ | main_check | main_early_exit
  | main_post_tests _ | main_return => true
  | _ => false
  end.

Definition main_moves (tr : list label) : list label :=
  List.filter of_main tr.
#[global] Arguments main_moves : simpl never.

(** The two ways [LaunchService.run] returns. *)
Definition service_return (l : label) : Prop :=
  l = service_run_returns ∨ l = service_stops.

(** Line 154: [return self._results, inactive_results]. *)
Definition return_value (results : option result) (inactive_results : result)
  : py (result * result) :=
  match results with
  | Some active_results => mret (active_results, inactive_results)
  | None => raise (AttributeError "_results")
  end.

(** The control flow of [run]: for each place of the primary thread, the
    moves it made to get there, with what is known there of the completion
    signal, of [self._results] and of the two accumulators; [setup] is
    whether lines 66-113 returned or what they raised. *)
Inductive main_path (setup : py unit) :
    main_pc → bool → option result → list ProcessExited → list ProcessIO →
    list label → Prop :=
  | path_at_bind c r pi po :
      main_path setup at_bind c r pi po []
  | path_bind_raised e c r pi po :
      setup = inl e →
      main_path setup (finished (inl e)) c r pi po [main_bind]
  | path_at_thread_start c r pi po :
      setup = inr tt →
      main_path setup at_thread_start c r pi po [main_bind]
  | path_thread_start_raised e c r pi po :
      setup = inr tt →
      main_path setup (finished (inl e)) c r pi po
        [main_bind; thread_start_raises e]
  | path_at_service_run c r pi po :
      setup = inr tt →
      main_path setup at_service_run c r pi po [main_bind; main_start_thread]
  | path_in_service_run c r pi po :
      setup = inr tt →
      main_path setup in_service_run c r pi po
        [main_bind; main_start_thread; main_enter_service_run]
  | path_service_run_raised e c r pi po :
      setup = inr tt →
      main_path setup (finished (inl e)) c r pi po
        [main_bind; main_start_thread; main_enter_service_run;
         service_run_raises e]
  | path_at_check ret c r pi po :
      setup = inr tt →
      service_return ret →
      main_path setup at_check c r pi po
        [main_bind; main_start_thread; main_enter_service_run; ret]
  | path_at_early_exit ret c r pi po :
      setup = inr tt →
      service_return ret →
      main_path setup at_early_exit c r pi po
        [main_bind; main_start_thread; main_enter_service_run; ret;
         main_check]
  | path_at_post_tests ret r pi po :
      setup = inr tt →
      service_return ret →
      main_path setup at_post_tests true r pi po
        [main_bind; main_start_thread; main_enter_service_run; ret;
         main_check]
  | path_at_return ret inactive r pi po :
      setup = inr tt →
      service_return ret →
      main_path setup (at_return inactive) true r pi po
        [main_bind; main_start_thread; main_enter_service_run; ret;
         main_check; main_post_tests (inr inactive)]
  | path_early_exit ret c r pi po :
      setup = inr tt →
      service_return ret →
      main_path setup (finished (early_exit pi po).2) c r pi po
        [main_bind; main_start_thread; main_enter_service_run; ret;
         main_check; main_early_exit]
  | path_post_tests_raised ret e r pi po :
      setup = inr tt →
      service_return ret →
      main_path setup (finished (inl e)) true r pi po
        [main_bind; main_start_thread; main_enter_service_run; ret;
         main_check; main_post_tests (inl e)]
  | path_run_returned ret inactive r pi po :
      setup = inr tt →
      service_return ret →
      main_path setup (finished (return_value r inactive)) true r pi po
        [main_bind; main_start_thread; main_enter_service_run; ret;
         main_check; main_post_tests (inr inactive); main_return].

(** *** Driving a run to its end *)

Section Schedule.

Variable parse_launch_arguments : list string -> py (list (string * string)).
Variable self : t.

(** What the two suites answer when they are run. *)
Variables active inactive : py result.

(** The next move of a run that is left to itself: the primary thread moves
    when it can; while it is blocked in [LaunchService.run] the secondary
    thread moves, time passing while it waits for a readiness signal that is
    not set; and [LaunchService.run] returns once the secondary thread has
    returned.  There is none when [run] is over. *)
Definition next_move (s : state) : option label :=
  match main s with
  | at_bind => Some main_bind
  | at_thread_start => Some main_start_thread
  | at_service_run => Some main_enter_service_run
  | in_service_run =>
      match thread s with
      | not_started => None
      | at_wait => Some thread_wait
      | in_wait deadline =>
          if _processes_launched s then Some (wait_returns true)
          else if bool_decide (deadline ≤ now s) then Some (wait_returns false)
          else Some tick
      | at_timeout_print => Some thread_print_timeout
      | at_timeout_shutdown => Some thread_shutdown
      | at_tests => Some (thread_tests active)
      | at_finally_set _ => Some thread_set_completed
      | at_finally_shutdown _ => Some thread_shutdown
      | returned => Some service_run_returns
      end
  | at_check => Some main_check
  | at_early_exit => Some main_early_exit
  | at_post_tests => Some (main_post_tests inactive)
  | at_return _ => Some main_return
  | finished _ => None
  end.

(** The moves of a run left to itself, as many as the fuel allows. *)
Fixpoint schedule (fuel : nat) (s : state) : list label :=
  match fuel with
  | 0 => []
  | S fuel =>
      match next_move s with
      | None => []
      | Some l =>
          match step parse_launch_arguments self l s with
          | Some s' => l :: schedule fuel s'
          | None => []
          end
      end
  end.

End Schedule.

(** A bound on the moves a run left to itself still makes. *)
Definition thread_left (s : state) : nat :=
  match thread s with
  | not_started => 0
  | at_wait => if _processes_launched s then 5 else startup_timeout + 4
  | in_wait deadline =>
      if _processes_launched s then 4 else (deadline - now s) + 3
  | at_timeout_print => 2
  | at_timeout_shutdown => 1
  | at_tests => 3
  | at_finally_set _ => 2
  | at_finally_shutdown _ => 1
  | returned => 0
  end.

Definition moves_left (s : state) : nat :=
  match main s with
  | at_bind => startup_timeout + 11
  | at_thread_start => startup_timeout + 10
  | at_service_run => thread_left s + 5
  | in_service_run => thread_left s + 4
  | at_check => 3
  | at_early_exit => 1
  | at_post_tests => 2
  | at_return _ => 1
  | finished _ => 0
  end.

(** A move the two threads make by themselves, the supervisor's return
    upon shutdown, or the passing of time: not the death of the processes,
    an exception out of [Thread.start] or [LaunchService.run], a call of the
    readiness callback or an event of a process. *)
Definition unprompted (l : label) : bool :=
  match l with
  | thread_start_raises _ | service_stops | service_run_raises _
  | ready_fn | on_exit _ | on_output _ => false
  | _ => true
  end.

End _RunnerWorker.

(** ** [ApexRunner] *)

Module ApexRunner.

(** The attributes [__init__] sets from its arguments. *)
Record t := {
  _test_runs : list TestRun;
  _launch_file_arguments : list string;
  _debug : bool
}.

Section Runner.

Variable parse_launch_arguments : list string -> py (list (string * string)).

(** [ApexRunner.run], lines 216-219, under a schedule for the worker it
    runs: the workers it constructed, oldest first, and what it returns
    ([None] inside [py] is Python's [None]) or raises; the outer [None]
    is that of [_RunnerWorker.run]. *)
Definition run (self : t) (schedule : list _RunnerWorker.label)
  : list _RunnerWorker.t * option (py (option (result * result))) :=
  match _test_runs self with
  | [] => ([], Some (mret None))
  | run :: _ =>
      let worker :=
        {| _RunnerWorker._test_run := run;
           _RunnerWorker._launch_file_arguments := _launch_file_arguments self;
           _RunnerWorker.debug := _debug self |} in
      ([worker],
       r ← _RunnerWorker.run parse_launch_arguments worker schedule;
       Some (results ← r; mret (Some results)))
  end.

End Runner.

(** [for x in xs: body], for a body that prints nothing. *)
Fixpoint for_in {A} (xs : list A) (body : A -> py unit) : py unit :=
  match xs with
  | [] => mret tt
  | x :: rest => body x;; for_in rest body
  end.

(** [ApexRunner.validate]: lines 225-226. *)
Definition validate (self : t) : py unit :=
  for_in (_test_runs self) (fun run =>
    _ ← getcallargs (test_description_function run); mret tt).

End ApexRunner.

(** * Properties *)

Import _RunnerWorker.

(** ** Binding *)

Section Binding.

Variable test_context : gmap string value.
Variable parsed_launch_arguments : list (string * string).

Lemma supplied_reserved s k : is_Some (supplied parsed_launch_arguments s k) ↔ reserved k = true.
Proof.
  unfold supplied, reserved. rewrite bool_decide_eq_true.
  repeat case_decide; split; intros Hk; eauto; [by destruct Hk | tauto].
Qed.

Lemma lookup_handles s k :
  ({[ "proc_info" := proc_info_for s;
      "proc_output" := proc_output_for s;
      "test_args" := Dict (make_test_args parsed_launch_arguments) ]}
     : gmap string value) !! k = supplied parsed_launch_arguments s k.
Proof.
  unfold supplied. repeat case_decide; subst; by simplify_map_eq.
Qed.

Lemma lookup_dict (mapping kwargs : gmap string value) k :
  dict mapping kwargs !! k =
    match kwargs !! k with
    | Some v => Some v
    | None => mapping !! k
    end.
Proof.
  unfold dict. destruct (kwargs !! k) as [v|] eqn:E.
  - by apply lookup_union_Some_l.
  - rewrite lookup_union_r; done.
Qed.

(** The two calls of [bind], spelled out. *)
Lemma bind_tests_calls :
  bind_tests test_context parsed_launch_arguments =
    [ BindCall pre_shutdown_tests
        {[ "proc_info" := proc_info_for pre_shutdown_tests;
           "proc_output" := proc_output_for pre_shutdown_tests;
           "test_args" := Dict (make_test_args parsed_launch_arguments) ]}
        (dict test_context
           {[ "proc_info" := proc_info_for pre_shutdown_tests;
              "proc_output" := proc_output_for pre_shutdown_tests;
              "test_args" := Dict (make_test_args parsed_launch_arguments) ]});
      BindCall post_shutdown_tests
        {[ "proc_info" := proc_info_for post_shutdown_tests;
           "proc_output" := proc_output_for post_shutdown_tests;
           "test_args" := Dict (make_test_args parsed_launch_arguments) ]}
        (dict test_context
           {[ "proc_info" := proc_info_for post_shutdown_tests;
              "proc_output" := proc_output_for post_shutdown_tests;
              "test_args" := Dict (make_test_args parsed_launch_arguments) ]}) ].
Proof. reflexivity. Qed.

End Binding.

(** The parsed arguments as a mapping: a later pair replaces an earlier
    one of the same name. *)
Lemma make_test_args_list_to_map (parsed : list (string * string)) :
  make_test_args parsed = list_to_map (reverse parsed).
Proof.
  induction parsed as [|[k v] parsed IH] using rev_ind; [reflexivity|].
  unfold make_test_args in *. rewrite foldl_app, reverse_app. cbn. by rewrite IH.
Qed.

(** C6: when the description function returns its context, the launch
    arguments parse and [bind] returns for the pre-shutdown suite, the first
    move of [run] binds the pre-shutdown suite and then the post-shutdown
    suite, from the context of the run definition and the parsed launch
    arguments.  The pre-shutdown suite is given the live accumulators
    ([ActiveProcInfoHandler], [ActiveIoHandler]), the post-shutdown suite
    the stores they wrap ([ProcInfoHandler], [IoHandler]); both are given
    them and the parsed arguments under the names [proc_info],
    [proc_output] and [test_args], as injected attributes (which hold these
    three names only) and as injected keyword arguments, where every name
    that is not one of the three carries what the normalized description's
    context has under it. *)
Theorem bind_injects_handles_and_context
    (parse_launch_arguments : list string → py (list (string * string)))
    (self : _RunnerWorker.t) (context : gmap string value)
    (parsed_launch_arguments : list (string * string)) :
  normalized_test_description (_test_run self) = inr context →
  parse_launch_arguments (_launch_file_arguments self)
    = inr parsed_launch_arguments →
  (∀ attributes kwargs,
     bind (_test_run self) pre_shutdown_tests attributes kwargs = inr tt) →
  let test_args := Dict (make_test_args parsed_launch_arguments) in
  ∃ pre post,
    bound <$> step parse_launch_arguments self main_bind initial
      = Some [pre; post]
    ∧ bind_tests context parsed_launch_arguments = [pre; post]
    ∧ bound_suite pre = pre_shutdown_tests
    ∧ bound_suite post = post_shutdown_tests
    ∧ injected_attributes pre =
        {[ "proc_info" := ActiveProcInfoHandler;
           "proc_output" := ActiveIoHandler;
           "test_args" := test_args ]}
    ∧ injected_attributes post =
        {[ "proc_info" := ProcInfoHandler;
           "proc_output" := IoHandler;
           "test_args" := test_args ]}
    ∧ injected_args pre !! "proc_info" = Some ActiveProcInfoHandler
    ∧ injected_args pre !! "proc_output" = Some ActiveIoHandler
    ∧ injected_args pre !! "test_args" = Some test_args
    ∧ injected_args post !! "proc_info" = Some ProcInfoHandler
    ∧ injected_args post !! "proc_output" = Some IoHandler
    ∧ injected_args post !! "test_args" = Some test_args
    ∧ (∀ k, injected_args pre !! k =
              if reserved k
              then supplied parsed_launch_arguments pre_shutdown_tests k
              else context !! k)
    ∧ (∀ k, injected_args post !! k =
              if reserved k
              then supplied parsed_launch_arguments post_shutdown_tests k
              else context !! k).
Proof.
  intros Hcontext Hparsed Hbind test_args.
  assert (Hbound : bound <$> step parse_launch_arguments self main_bind initial
                   = Some (bind_tests context parsed_launch_arguments)).
  { unfold step, binding. cbn [main initial]. rewrite Hcontext, Hparsed.
    rewrite bind_tests_calls. cbn [bind_each bound_suite]. rewrite Hbind.
    cbn [fst snd].
    by destruct (bind (_test_run self) _ _ _). }
  rewrite Hbound, bind_tests_calls.
  eexists _, _. split; [reflexivity|]. split; [reflexivity|].
  do 4 (split; [reflexivity|]). cbn [injected_args].
  rewrite !lookup_dict, !lookup_handles.
  do 6 (split; [reflexivity|]).
  split; intros k; rewrite lookup_dict, lookup_handles.
  all: destruct (reserved k) eqn:Hk.
  all: match goal with
       | |- context [supplied ?p ?s ?k] =>
           pose proof (supplied_reserved p s k) as Hs;
           destruct (supplied p s k) as [v|]
       end.
  all: try done.
  all: rewrite Hk in Hs.
  all: try (assert (is_Some (@None value)) as [? ?]; [by apply Hs | done]).
  all: assert (false = true); [apply Hs; eauto | done].
Qed.

Lemma bind_injects_handles_and_context_witness :
  let worker :=
    {| _test_run :=
         {| test_description_function :=
              Function "generate_test_description"
                (ArgSpec ["ready_fn"] 0 false false [] []) false
                (mret {[ "dut" := Opaque 1 ]});
            bind := fun _ _ _ => mret tt |};
       _launch_file_arguments := ["mode:=fast"];
       debug := false |} in
  let parse := fun _ : list string => mret [("mode", "fast")] : py _ in
  ∃ pre post,
    bound <$> step parse worker main_bind initial = Some [pre; post]
    ∧ injected_args pre !! "proc_info" = Some ActiveProcInfoHandler
    ∧ injected_args post !! "proc_info" = Some ProcInfoHandler
    ∧ injected_args pre !! "dut" = Some (Opaque 1)
    ∧ injected_args post !! "test_args"
      = Some (Dict (make_test_args [("mode", "fast")])).
Proof.
  intros worker parse.
  destruct (bind_injects_handles_and_context parse worker
              {[ "dut" := Opaque 1 ]} [("mode", "fast")])
    as (pre & post & Hbound & _ & _ & _ & _ & _ & Hinfo & _ & _ & Hinfo'
        & _ & Hargs & Hpre & _);
    [reflexivity|reflexivity|reflexivity|].
  exists pre, post. split; [exact Hbound|]. split; [exact Hinfo|].
  split; [exact Hinfo'|]. split; [|exact Hargs].
  rewrite (Hpre "dut"). reflexivity.
Defined.

(** C10: when the context of a run definition has an entry under one of
    the reserved names [proc_info], [proc_output], [test_args], the keyword
    arguments injected into the pre-shutdown suite and into the
    post-shutdown suite, the two that lines 80-113 bind, carry under that
    name what the coordinator supplies (the suite's accumulator handle, or
    the mapping of the parsed arguments), not the entry of the context:
    where the two differ, the injected value is not the context's. *)
Theorem reserved_names_override_context
    (test_context : gmap string value)
    (parsed_launch_arguments : list (string * string))
    (k : string) (own : value) :
  test_context !! k = Some own →
  reserved k = true →
  ∃ pre post,
    bind_tests test_context parsed_launch_arguments = [pre; post]
    ∧ bound_suite pre = pre_shutdown_tests
    ∧ bound_suite post = post_shutdown_tests
    ∧ injected_args pre !! k =
        (if decide (k = "proc_info") then Some ActiveProcInfoHandler
         else if decide (k = "proc_output") then Some ActiveIoHandler
         else Some (Dict (list_to_map (reverse parsed_launch_arguments))))
    ∧ injected_args post !! k =
        (if decide (k = "proc_info") then Some ProcInfoHandler
         else if decide (k = "proc_output") then Some IoHandler
         else Some (Dict (list_to_map (reverse parsed_launch_arguments))))
    ∧ (injected_args pre !! k ≠ Some own →
       injected_args pre !! k ≠ test_context !! k)
    ∧ (injected_args post !! k ≠ Some own →
       injected_args post !! k ≠ test_context !! k).
Proof.
  intros Hown Hk. rewrite bind_tests_calls. eexists _, _.
  split; [reflexivity|]. split; [reflexivity|]. split; [reflexivity|].
  cbn [injected_args]. rewrite !lookup_dict, !lookup_handles, Hown.
  rewrite <- make_test_args_list_to_map.
  unfold reserved in Hk. apply bool_decide_eq_true in Hk.
  unfold supplied, proc_info_for, proc_output_for.
  repeat case_decide; try tauto; by repeat split.
Qed.

Lemma reserved_names_override_context_witness :
  let ctx : gmap string value := {[ "proc_info" := Opaque 7; "dut" := Opaque 1 ]} in
  ∃ pre post,
    bind_tests ctx [("mode", "fast")] = [pre; post]
    ∧ ctx !! "proc_info" = Some (Opaque 7)
    ∧ injected_args pre !! "proc_info" = Some ActiveProcInfoHandler
    ∧ injected_args post !! "proc_info" = Some ProcInfoHandler.
Proof.
  intros ctx.
  destruct (reserved_names_override_context ctx [("mode", "fast")]
              "proc_info" (Opaque 7))
    as (pre & post & Hcalls & _ & _ & Hpre & Hpost & _);
    [reflexivity|reflexivity|].
  exists pre, post. split; [exact Hcalls|]. split; [reflexivity|].
  split; [exact Hpre|exact Hpost].
Defined.

(** ** Validation *)

(** What [inspect.getcallargs] raises for an object it refuses. *)
Lemma getcallargs_accepts func :
  match getcallargs func with
  | inl e =>
      accepts_single_argument func = false
      ∧ e = match func with
            | Function name _ _ _ | Object (Some _) (Some name) _ _ =>
                TypeError name
            | Object None _ _ _ => TypeError "unsupported callable"
            | Object (Some _) None _ _ => AttributeError "__name__"
            end
  | inr _ => accepts_single_argument func = true
  end.
Proof.
  assert (Hchecks : ∀ (f_name : string) (spec : FullArgSpec)
                           (is_bound_method : bool),
    match
      (let num_pos := if is_bound_method then 2 else 1 in
       let num_args := length (args spec) in
       if bool_decide (num_args < num_pos) && negb (varargs spec)
       then raise (TypeError f_name)
       else if bool_decide (num_pos < num_args - num_defaults spec)
       then raise (TypeError f_name)
       else if bool_decide (Exists (fun kwarg => kwarg ∉ kwonlydefaults spec)
                              (kwonlyargs spec))
       then raise (TypeError f_name)
       else mret (args spec ++ kwonlyargs spec) : py (list string))
    with
    | inl e => binds spec (if is_bound_method then 2 else 1) = false
               ∧ e = TypeError f_name
    | inr _ => binds spec (if is_bound_method then 2 else 1) = true
    end).
  { intros f_name spec is_bound_method. unfold binds.
    destruct is_bound_method, (varargs spec); cbn [negb andb orb];
      rewrite ?andb_true_r, ?andb_false_r, ?orb_true_r, ?orb_false_r.
    all: repeat case_bool_decide; cbn [raise andb orb].
    all: repeat match goal with
         | H : Exists _ _ |- _ => apply Exists_exists in H as (kw & Hin & Hkw)
         | H : ¬ Exists _ _ |- _ => rewrite <- Forall_Exists_neg in H
         end.
    all: try (split; [|reflexivity]).
    all: try lia.
    all: try (apply not_true_is_false; rewrite forallb_forall;
              intros Hall; apply Hkw;
              apply list_elem_of_In, Hall in Hin;
              by apply bool_decide_eq_true in Hin).
    all: try (apply forallb_forall; intros kw Hin;
              apply list_elem_of_In in Hin; apply bool_decide_eq_true;
              rewrite Forall_forall in *;
              match goal with H : ∀ x, x ∈ _ → ¬ _ |- _ =>
                destruct (decide (kw ∈ kwonlydefaults spec)) as [|Hn];
                  [done | by destruct (H kw Hin)]
              end). }
  destruct func as [name spec is_bound_method body
                   |[spec|] [name|] is_bound_method called];
    try (by split).
  all: exact (Hchecks name spec is_bound_method).
Qed.

Lemma for_in_first_failure {A} (xs : list A) (body : A → py unit) :
  match ApexRunner.for_in xs body with
  | inr _ => Forall (fun x => body x = inr tt) xs
  | inl e => ∃ before x after,
      xs = before ++ x :: after
      ∧ Forall (fun x => body x = inr tt) before
      ∧ body x = inl e
  end.
Proof.
  induction xs as [|x xs IH]; cbn [ApexRunner.for_in]; [constructor|].
  destruct (body x) as [e|[]] eqn:Hx; cbn.
  - exists [], x, xs. by repeat split.
  - destruct (ApexRunner.for_in xs body) as [e|[]].
    + destruct IH as (before & y & after & -> & Hbefore & Hy).
      exists (x :: before), y, after. repeat split; [|done]. by constructor.
    + by constructor.
Qed.

(** C5, amended: the claim says [ConfigurationError], the code lets the
    exception of [inspect.getcallargs] through.  [validate] returns when
    [inspect] accepts every description function with the readiness
    callback as its single positional argument: it finds the parameters of
    the object and its [__name__], and the parameters take the argument.
    Otherwise it raises, at the first run definition it refuses, what
    [inspect.getcallargs] raises: a [TypeError] that names the function (not
    the run) when the parameters do not take the argument, a [TypeError]
    when no signature is found, an [AttributeError] when the object has no
    [__name__].  A function without parameters is refused; a function with
    exactly one positional parameter is accepted; and for a function or a
    bound method, to be accepted is to be callable with the readiness
    callback as the single argument: the call runs the body when [validate]
    accepts the function, and raises the [TypeError] otherwise. *)
Theorem validate_raises_at_first_refused_definition (self : ApexRunner.t) :
  let ok := fun run =>
    accepts_single_argument (test_description_function run) = true in
  match ApexRunner.validate self with
  | inr _ => Forall ok (ApexRunner._test_runs self)
  | inl e => ∃ before run after,
      ApexRunner._test_runs self = before ++ run :: after
      ∧ Forall ok before
      ∧ accepts_single_argument (test_description_function run) = false
      ∧ e = match test_description_function run with
            | Function name _ _ _ | Object (Some _) (Some name) _ _ =>
                TypeError name
            | Object None _ _ _ => TypeError "unsupported callable"
            | Object (Some _) None _ _ => AttributeError "__name__"
            end
      ∧ (class_name e = "TypeError" ∨ class_name e = "AttributeError")
  end
  ∧ (∀ name kw body, accepts_single_argument
        (Function name (ArgSpec [] 0 false kw [] []) false body) = false)
  ∧ (∀ name arg defaults va kw body, accepts_single_argument
        (Function name (ArgSpec [arg] defaults va kw [] []) false body) = true)
  ∧ (∀ name spec is_bound_method body,
       let func := Function name spec is_bound_method body in
       call func = if accepts_single_argument func
                   then body
                   else raise (TypeError name)).
Proof.
  intros ok. split; [|split; [done|split; [|done]]].
  - unfold ApexRunner.validate.
    set (body := fun run : TestRun =>
      _ ← getcallargs (test_description_function run); mret tt).
    assert (Hbody : ∀ run,
      match body run with
      | inl e => accepts_single_argument (test_description_function run) = false
                 ∧ e = match test_description_function run with
                       | Function name _ _ _
                       | Object (Some _) (Some name) _ _ => TypeError name
                       | Object None _ _ _ => TypeError "unsupported callable"
                       | Object (Some _) None _ _ => AttributeError "__name__"
                       end
      | inr _ => ok run
      end).
    { intros run. unfold body, ok.
      pose proof (getcallargs_accepts (test_description_function run)) as H.
      by destruct (getcallargs (test_description_function run)). }
    pose proof (for_in_first_failure (ApexRunner._test_runs self) body) as H.
    destruct (ApexRunner.for_in (ApexRunner._test_runs self) body) as [e|[]].
    + destruct H as (before & run & after & Hruns & Hbefore & Hrun).
      exists before, run, after. split; [done|].
      pose proof (Hbody run) as Hr. rewrite Hrun in Hr. destruct Hr as [Hno ->].
      split; [|split; [done|split; [done|]]].
      * eapply Forall_impl; [exact Hbefore|]. intros r Hr. cbn in Hr.
        pose proof (Hbody r) as Hb. by rewrite Hr in Hb.
      * destruct (test_description_function run) as [|[|] [|]]; cbn; tauto.
    + eapply Forall_impl; [exact H|]. intros r Hr. cbn in Hr.
      pose proof (Hbody r) as Hb. by rewrite Hr in Hb.
  - intros name arg defaults va kw body. unfold accepts_single_argument, binds.
    cbn. rewrite andb_true_r. apply andb_true_iff. split.
    + apply bool_decide_eq_true. lia.
    + done.
Qed.

(** C5 as stated fails: for a description function without parameters
    [validate] raises a [TypeError], not a [ConfigurationError]; it raises
    for a function whose only parameter is keyword-only; and it raises an
    [AttributeError] for a [functools.partial] with one parameter left,
    which takes the readiness callback when it is called. *)
Lemma validate_raises_no_ConfigurationError :
  let no_parameter :=
    Function "generate_test_description" (ArgSpec [] 0 false false [] [])
      false (mret ∅) in
  let keyword_only :=
    Function "generate_test_description"
      (ArgSpec [] 0 false false ["ready_fn"] []) false (mret ∅) in
  let partial :=
    Object (Some (ArgSpec ["ready_fn"] 0 false false [] [])) None false
      (mret ∅) in
  let runner := fun func =>
    {| ApexRunner._test_runs :=
         [ {| test_description_function := func;
              bind := fun _ _ _ => mret tt |} ];
       ApexRunner._launch_file_arguments := [];
       ApexRunner._debug := false |} in
  (∃ e, ApexRunner.validate (runner no_parameter) = raise e
        ∧ class_name e = "TypeError"
        ∧ class_name e ≠ "ConfigurationError")
  ∧ ApexRunner.validate (runner keyword_only)
      = raise (TypeError "generate_test_description")
  ∧ call partial = mret ∅
  ∧ ApexRunner.validate (runner partial) = raise (AttributeError "__name__").
Proof.
  cbn zeta. split; [|split; [|split]]; try reflexivity.
  exists (TypeError "generate_test_description"). repeat split. discriminate.
Qed.

(** ** The orchestrator *)

(** C7: for a non-empty list of run definitions [ApexRunner.run] constructs
    one worker, for the first definition, with the runner's launch
    arguments and debug flag, and returns what that worker's [run] returns
    (or raises what it raises); the definitions after the first have no
    part in it. *)
Theorem run_drives_first_definition_only
    (parse_launch_arguments : list string → py (list (string * string)))
    (first : TestRun) (others : list TestRun)
    (launch_file_arguments : list string) (debug : bool)
    (schedule : list _RunnerWorker.label) :
  let runner := fun test_runs =>
    {| ApexRunner._test_runs := test_runs;
       ApexRunner._launch_file_arguments := launch_file_arguments;
       ApexRunner._debug := debug |} in
  let worker :=
    {| _RunnerWorker._test_run := first;
       _RunnerWorker._launch_file_arguments := launch_file_arguments;
       _RunnerWorker.debug := debug |} in
  (ApexRunner.run parse_launch_arguments (runner (first :: others)) schedule).1
    = [worker]
  ∧ (ApexRunner.run parse_launch_arguments (runner (first :: others)) schedule).2
    = match _RunnerWorker.run parse_launch_arguments worker schedule with
      | Some (inr results) => Some (inr (Some results))
      | Some (inl e) => Some (inl e)
      | None => None
      end
  ∧ ApexRunner.run parse_launch_arguments (runner (first :: others)) schedule
    = ApexRunner.run parse_launch_arguments (runner [first]) schedule.
Proof.
  cbn zeta. split; [reflexivity|]. split; [|reflexivity].
  cbn [ApexRunner.run ApexRunner._test_runs snd].
  by destruct (_RunnerWorker.run _ _ _) as [[e|results]|].
Qed.

(** C9: for the empty list of run definitions [ApexRunner.run] constructs
    no worker and returns Python's [None]: no pair of results. *)
Theorem run_of_no_definition_returns_None
    (parse_launch_arguments : list string → py (list (string * string)))
    (launch_file_arguments : list string) (debug : bool)
    (schedule : list _RunnerWorker.label) :
  let runner :=
    {| ApexRunner._test_runs := [];
       ApexRunner._launch_file_arguments := launch_file_arguments;
       ApexRunner._debug := debug |} in
  ApexRunner.run parse_launch_arguments runner schedule = ([], Some (inr None))
  ∧ ¬ ∃ results : result * result,
        (ApexRunner.run parse_launch_arguments runner schedule).2
        = Some (inr (Some results)).
Proof.
  cbn zeta. split; [reflexivity|]. intros [results Hresults]. discriminate Hresults.
Qed.

(** ** The diagnostic summary *)

Lemma for_each_returns {A} (xs : list A) (body : A → out unit)
    (lines : A → list string) :
  (∀ x, x ∈ xs → body x = (lines x, inr tt)) →
  for_each xs body = (concat (map lines xs), inr tt).
Proof.
  induction xs as [|x xs IH]; intros Hbody; [reflexivity|].
  cbn [for_each map concat]. unfold mbind, out_bind.
  rewrite (Hbody x) by left. cbn [fst snd].
  rewrite IH; [reflexivity|]. intros y Hy. apply Hbody. by right.
Qed.

Lemma print_output_lines (lines : list ProcessIO) :
  Forall (fun io => is_ascii (text io) = true) lines →
  for_each lines (fun io => line ← lift (decode_ascii (text io)); print line)
  = (map (fun io => string_of_list_byte (text io)) lines, inr tt).
Proof.
  intros Hascii.
  rewrite (for_each_returns _ _ (fun io => [string_of_list_byte (text io)])).
  - f_equal. induction lines as [|io lines IH]; [done|].
    cbn [map concat app]. f_equal. apply IH. by inversion Hascii.
  - intros io Hio. rewrite Forall_forall in Hascii.
    specialize (Hascii io Hio). unfold decode_ascii, is_ascii in *.
    by rewrite Hascii.
Qed.

(** Apart from output that is not ASCII, the summary is the sections of the
    processes with a non-zero exit code, in the order of the accumulator,
    and it returns. *)
Lemma summary_of_ascii_output (proc_info : list ProcessExited)
    (proc_output : list ProcessIO) :
  Forall (fun io => is_ascii (text io) = true) proc_output →
  _print_process_output_summary proc_info proc_output
  = (concat (map (section_of proc_output)
               (filter (fun proc => returncode proc ≠ 0%Z) proc_info)),
     inr tt).
Proof.
  intros Hascii. unfold _print_process_output_summary.
  apply for_each_returns. intros process _.
  unfold section_of, proc_output_getitem.
  set (lines := filter (fun io => io_action io = action process) proc_output).
  assert (Hlines : Forall (fun io => is_ascii (text io) = true) lines).
  { apply Forall_forall. intros io Hio. rewrite Forall_forall in Hascii.
    apply Hascii. unfold lines in Hio. by apply list_elem_of_filter in Hio as [_ ?]. }
  clearbody lines. destruct lines as [|io rest]; [reflexivity|].
  unfold lift, mbind, out_bind, try_except_KeyError. cbn [fst snd mret py_ret].
  rewrite print_output_lines by done. reflexivity.
Qed.

(** C8, at a failing input: a process that exited with code 1 after writing
    the byte 255.  The summary prints its exit line and the header, then
    raises [UnicodeDecodeError]: the captured line is not printed, nor the
    footer, and the error is not caught ([except KeyError] only). *)
Theorem summary_raises_on_non_ascii_output :
  _RunnerWorker._print_process_output_summary
    [ {| action := 0; process_name := "talker"; returncode := 1%Z |} ]
    [ {| io_action := 0; text := [xff]%byte |} ]
  = ([ "Process 'talker' exited with 1"; "##### 'talker' output #####" ],
     raise UnicodeDecodeError).
Proof. reflexivity. Qed.

(** ** The two threads *)

Section Threads.

Variable parse_launch_arguments : list string → py (list (string * string)).
Variable self : _RunnerWorker.t.

Local Abbreviation exec := (exec parse_launch_arguments self).
Local Abbreviation step := (step parse_launch_arguments self).

Lemma exec_app tr1 tr2 s :
  exec (tr1 ++ tr2) s = s' ← exec tr1 s; exec tr2 s'.
Proof.
  revert s. induction tr1 as [|l tr1 IH]; intros s; [reflexivity|].
  cbn [app _RunnerWorker.exec]. destruct (step l s); [apply IH|reflexivity].
Qed.

Lemma exec_snoc tr l s s' :
  exec (tr ++ [l]) s = Some s' ↔ ∃ s1, exec tr s = Some s1 ∧ step l s1 = Some s'.
Proof.
  rewrite exec_app. destruct (exec tr s) as [s1|]; cbn.
  - split.
    + intros H. exists s1. split; [done|]. by destruct (step l s1).
    + intros (s2 & [= <-] & ->). done.
  - split; [done|]. by intros (? & ? & _).
Qed.

(** Induction over the runs of the program, a move at a time. *)
Lemma exec_ind (P : list label → state → Prop) :
  P [] initial →
  (∀ tr s l s', exec tr initial = Some s → P tr s → step l s = Some s' →
                P (tr ++ [l]) s') →
  ∀ tr s, exec tr initial = Some s → P tr s.
Proof.
  intros Hinit Hstep tr. induction tr as [|l tr IH] using rev_ind; intros s Hs.
  - injection Hs as <-. exact Hinit.
  - apply exec_snoc in Hs as (s1 & Hs1 & Hl). eauto.
Qed.

Lemma thread_moves_snoc tr l :
  thread_moves (tr ++ [l]) = thread_moves tr ++ (if of_thread l then [l] else []).
Proof. unfold thread_moves. rewrite List.filter_app. cbn. by destruct (of_thread l). Qed.

Ltac step_cases H :=
  unfold _RunnerWorker.step in H;
  repeat (case_match; try discriminate H);
  injection H as <-; cbn in *.

Ltac use_eqs :=
  repeat match goal with
         | H : _ = _ |- _ => rewrite H
         end.

(** The secondary thread follows [_run_test]. *)
Lemma thread_follows_run_test tr s :
  exec tr initial = Some s →
  thread_path (thread s) (_tests_completed s) (_results s) (thread_moves tr).
Proof.
  revert tr s. apply exec_ind; [constructor|].
  intros tr s l s' _ IH Hstep. rewrite thread_moves_snoc.
  destruct l; cbn [of_thread]; rewrite ?app_nil_r; step_cases Hstep;
    try exact IH; try (use_eqs; exact IH).
  all: inversion IH; subst; cbn [app].
  all: try match goal with
       | |- thread_path _ _ _ [_; _; thread_tests ?r] =>
           apply (path_at_finally_set r)
       end.
  all: constructor.
Qed.

Lemma thread_moves_app tr1 tr2 :
  thread_moves (tr1 ++ tr2) = thread_moves tr1 ++ thread_moves tr2.
Proof. apply List.filter_app. Qed.

Lemma thread_moves_cons l tr :
  thread_moves (l :: tr)
  = if of_thread l then l :: thread_moves tr else thread_moves tr.
Proof. reflexivity. Qed.

Lemma elem_of_thread_moves l tr :
  of_thread l = true → l ∈ thread_moves tr ↔ l ∈ tr.
Proof.
  intros Hl. unfold thread_moves.
  rewrite !list_elem_of_In, List.filter_In. tauto.
Qed.

Lemma occurrences_thread_moves l tr :
  of_thread l = true → occurrences l (thread_moves tr) = occurrences l tr.
Proof.
  intros Hl. unfold occurrences, thread_moves.
  induction tr as [|l' tr IH]; [reflexivity|].
  cbn [List.filter]. rewrite (filter_cons _ l' tr).
  destruct (decide (l' = l)) as [->|Hne].
  - rewrite Hl, filter_cons_True by done. cbn. by rewrite IH.
  - destruct (of_thread l'); [rewrite filter_cons_False by done|]; exact IH.
Qed.

(** A request for shutdown is the last move of the secondary thread, on
    one of its two paths. *)
Lemma path_to_shutdown pc completed results before after :
  thread_path pc completed results (before ++ thread_shutdown :: after) →
  after = [] ∧ pc = returned
  ∧ ((before = [thread_wait; wait_returns false; thread_print_timeout]
      ∧ completed = false ∧ results = None)
     ∨ ∃ r, before = [thread_wait; wait_returns true; thread_tests r;
                       thread_set_completed]
            ∧ completed = true ∧ results = results_after r).
Proof.
  intros Hpath.
  destruct before as [|l1 [|l2 [|l3 [|l4 [|l5 before]]]]];
    inversion Hpath; subst;
    try match goal with
        | H : [] = ?l ++ _ :: _ |- _ => by destruct l
        end;
    (split; [done|]); (split; [done|]).
  - by left.
  - right. eauto.
Qed.

End Threads.

(** C3, amended: the claim counts the readiness-wait timeout among the
    paths that set the signal, the code does not set it there.  Along any
    run the tests-completed signal is set at most once.  When [_run_test]
    has returned, either it saw the readiness signal, the pre-shutdown suite
    ran (returning a result or raising), and the signal was set exactly once
    before the request for shutdown and the return; or its wait timed out,
    and it returned after the message and the request for shutdown without
    ever setting the signal. *)
Theorem completion_set_once_except_on_timeout
    (parse_launch_arguments : list string → py (list (string * string)))
    (self : _RunnerWorker.t) (tr : list label) (s : state) :
  exec parse_launch_arguments self tr initial = Some s →
  occurrences thread_set_completed tr ≤ 1
  ∧ (thread s = returned →
       ((∃ r, thread_moves tr =
                [thread_wait; wait_returns true; thread_tests r;
                 thread_set_completed; thread_shutdown])
        ∧ occurrences thread_set_completed tr = 1
        ∧ _tests_completed s = true)
       ∨ (thread_moves tr =
            [thread_wait; wait_returns false; thread_print_timeout;
             thread_shutdown]
          ∧ occurrences thread_set_completed tr = 0
          ∧ _tests_completed s = false)).
Proof.
  intros Hs. apply thread_follows_run_test in Hs.
  rewrite <- (occurrences_thread_moves thread_set_completed tr) by done.
  split.
  - inversion Hs; cbv; lia.
  - intros Hret. rewrite Hret in Hs. inversion Hs.
    + right. repeat split.
    + left. repeat split. by exists r.
Qed.

Lemma completion_set_once_except_on_timeout_witness :
  let worker :=
    {| _test_run :=
         {| test_description_function :=
              Function "generate_test_description"
                (ArgSpec ["ready_fn"] 0 false false [] []) false (mret ∅);
            bind := fun _ _ _ => mret tt |};
       _launch_file_arguments := [];
       debug := false |} in
  let tr :=
    [main_bind; main_start_thread; main_enter_service_run; thread_wait;
     ready_fn; wait_returns true; thread_tests (inr (TestResult 1 0 0));
     thread_set_completed; thread_shutdown] in
  ∃ s, exec (fun _ => mret []) worker tr initial = Some s
       ∧ thread s = returned
       ∧ occurrences thread_set_completed tr ≤ 1
       ∧ (((∃ r, thread_moves tr =
                   [thread_wait; wait_returns true; thread_tests r;
                    thread_set_completed; thread_shutdown])
           ∧ occurrences thread_set_completed tr = 1
           ∧ _tests_completed s = true)
          ∨ (thread_moves tr =
               [thread_wait; wait_returns false; thread_print_timeout;
                thread_shutdown]
             ∧ occurrences thread_set_completed tr = 0
             ∧ _tests_completed s = false)).
Proof.
  intros worker tr. eexists.
  split; [vm_compute; reflexivity|]. split; [reflexivity|].
  match goal with
  | |- context [_tests_completed ?s] =>
      destruct (completion_set_once_except_on_timeout
                  (fun _ => mret []) worker tr s) as [Honce Hreturned]
  end.
  - vm_compute. reflexivity.
  - split; [exact Honce|]. apply Hreturned. reflexivity.
Defined.

(** C3 as stated fails on the timeout path: the routine returns and the
    signal was never set. *)
Lemma completion_not_set_on_timeout :
  let worker :=
    {| _test_run :=
         {| test_description_function :=
              Function "generate_test_description"
                (ArgSpec ["ready_fn"] 0 false false [] []) false (mret ∅);
            bind := fun _ _ _ => mret tt |};
       _launch_file_arguments := [];
       debug := false |} in
  let tr :=
    [main_bind; main_start_thread; main_enter_service_run; thread_wait]
    ++ replicate 15 tick
    ++ [wait_returns false; thread_print_timeout; thread_shutdown] in
  ∃ s, exec (fun _ => mret []) worker tr initial = Some s
       ∧ thread s = returned
       ∧ _tests_completed s = false
       ∧ occurrences thread_set_completed tr = 0.
Proof.
  intros worker tr. eexists. split; [vm_compute; reflexivity|].
  repeat split.
Qed.

(** C4, amended: the claim has the signal set before every request for
    shutdown, the code requests shutdown on the timeout path without
    setting it.  When the secondary thread requests shutdown, either the
    pre-shutdown suite has run and the completion signal was set before the
    request, or the readiness wait has timed out and the signal is not set,
    neither before the request nor at any time after it.  In both cases the
    state of the signal is settled when the request is made: whatever
    happens after it, the signal is set in the first case and unset in the
    second, which is what the primary thread's check observes. *)
Theorem shutdown_request_settles_completion
    (parse_launch_arguments : list string → py (list (string * string)))
    (self : _RunnerWorker.t) (before after : list label) (s : state) :
  exec parse_launch_arguments self (before ++ thread_shutdown :: after) initial
    = Some s →
  ((∃ r, thread_tests r ∈ before)
   ∧ thread_set_completed ∈ before
   ∧ occurrences thread_set_completed (before ++ thread_shutdown :: after) = 1
   ∧ _tests_completed s = true)
  ∨ (wait_returns false ∈ before
     ∧ occurrences thread_set_completed (before ++ thread_shutdown :: after) = 0
     ∧ _tests_completed s = false).
Proof.
  intros Hs. apply thread_follows_run_test in Hs.
  rewrite <- (occurrences_thread_moves thread_set_completed) by done.
  rewrite thread_moves_app, thread_moves_cons in *. cbn [of_thread] in *.
  apply path_to_shutdown in Hs
    as (-> & _ & [(Hb & -> & _)|(r & Hb & -> & _)]); rewrite Hb.
  - right. split; [|by split].
    apply (elem_of_thread_moves _ before); [done|]. rewrite Hb.
    apply list_elem_of_further, list_elem_of_here.
  - left. split; [|split; [|by split]].
    + exists r. apply (elem_of_thread_moves _ before); [done|]. rewrite Hb.
      do 2 apply list_elem_of_further. apply list_elem_of_here.
    + apply (elem_of_thread_moves _ before); [done|]. rewrite Hb.
      do 3 apply list_elem_of_further. apply list_elem_of_here.
Qed.

Lemma shutdown_request_settles_completion_witness :
  let worker :=
    {| _test_run :=
         {| test_description_function :=
              Function "generate_test_description"
                (ArgSpec ["ready_fn"] 0 false false [] []) false (mret ∅);
            bind := fun _ _ _ => mret tt |};
       _launch_file_arguments := [];
       debug := false |} in
  let before :=
    [main_bind; main_start_thread; main_enter_service_run; thread_wait;
     ready_fn; wait_returns true; thread_tests (inr (TestResult 1 0 0));
     thread_set_completed] in
  let after := [service_run_returns; main_check] in
  ∃ s, exec (fun _ => mret []) worker (before ++ thread_shutdown :: after) initial
         = Some s
       ∧ main s = at_post_tests
       ∧ ((∃ r, thread_tests r ∈ before)
          ∧ thread_set_completed ∈ before
          ∧ occurrences thread_set_completed
              (before ++ thread_shutdown :: after) = 1
          ∧ _tests_completed s = true
          ∨ wait_returns false ∈ before
            ∧ occurrences thread_set_completed
                (before ++ thread_shutdown :: after) = 0
            ∧ _tests_completed s = false).
Proof.
  intros worker before after. eexists.
  split; [vm_compute; reflexivity|]. split; [reflexivity|].
  apply (shutdown_request_settles_completion (fun _ => mret []) worker before after).
  vm_compute. reflexivity.
Defined.

(** C4 as stated fails on the timeout path: the secondary thread requests
    shutdown and the completion signal was not set before. *)
Lemma shutdown_requested_without_completion :
  let worker :=
    {| _test_run :=
         {| test_description_function :=
              Function "generate_test_description"
                (ArgSpec ["ready_fn"] 0 false false [] []) false (mret ∅);
            bind := fun _ _ _ => mret tt |};
       _launch_file_arguments := [];
       debug := false |} in
  let before :=
    [main_bind; main_start_thread; main_enter_service_run; thread_wait]
    ++ replicate 15 tick
    ++ [wait_returns false; thread_print_timeout] in
  ∃ s1 s2,
    exec (fun _ => mret []) worker before initial = Some s1
    ∧ _RunnerWorker.step (fun _ => mret []) worker thread_shutdown s1 = Some s2
    ∧ (thread_set_completed ∉ before)
    ∧ _tests_completed s1 = false
    ∧ shutdown_requested s2 = true
    ∧ _tests_completed s2 = false.
Proof.
  intros worker before. eexists _, _.
  split; [vm_compute; reflexivity|]. split; [vm_compute; reflexivity|].
  split; [|by repeat split].
  intros Hin. apply list_elem_of_In in Hin.
  vm_compute in Hin. intuition discriminate.
Qed.

(** ** What the summary can raise *)

Lemma outcome_bind {A B} (c : out A) (k : A → out B) :
  (c ≫= k).2 = match c.2 with
                | inl e => inl e
                | inr a => (k a).2
                end.
Proof. unfold mbind, out_bind. by destruct c.2. Qed.

Lemma decode_error_only_bind {A B} (c : out A) (k : A → out B) :
  decode_error_only c → (∀ a, decode_error_only (k a)) →
  decode_error_only (c ≫= k).
Proof.
  intros Hc Hk e. rewrite outcome_bind.
  destruct c.2 as [e'|a] eqn:Hc2.
  - intros [= <-]. by apply Hc.
  - apply Hk.
Qed.

Lemma decode_error_only_print line : decode_error_only (print line).
Proof. intros e. discriminate. Qed.

Lemma decode_error_only_for_each {A} (xs : list A) (body : A → out unit) :
  (∀ x, decode_error_only (body x)) → decode_error_only (for_each xs body).
Proof.
  intros Hbody. induction xs as [|x xs IH]; [intros e; discriminate|].
  cbn [for_each]. apply decode_error_only_bind; [apply Hbody|]. by intros _.
Qed.

Lemma decode_error_only_decode bs : decode_error_only (lift (decode_ascii bs)).
Proof.
  intros e. unfold lift, decode_ascii. destruct (is_ascii bs); cbn.
  - discriminate.
  - by intros [= <-].
Qed.

Lemma decode_error_only_try (body : out unit) :
  decode_error_only body → decode_error_only (try_except_KeyError body).
Proof.
  intros Hbody e. unfold try_except_KeyError.
  destruct body as [printed [[]|[]]] eqn:Hb; cbn [snd]; try discriminate.
  all: apply (Hbody e).
Qed.

Lemma try_except_catches_KeyError (body : out unit) :
  body.2 = inl KeyError → (try_except_KeyError body).2 = inr tt.
Proof. unfold try_except_KeyError. by intros ->. Qed.

Lemma summary_raises_only_UnicodeDecodeError proc_info proc_output :
  decode_error_only (_print_process_output_summary proc_info proc_output).
Proof.
  unfold _print_process_output_summary.
  apply decode_error_only_for_each. intros process.
  apply decode_error_only_bind; [apply decode_error_only_print|]. intros _.
  apply decode_error_only_bind; [apply decode_error_only_print|]. intros _.
  apply decode_error_only_bind; [|intros _; apply decode_error_only_print].
  unfold proc_output_getitem.
  destruct (filter _ proc_output) as [|io lines].
  - intros e. by rewrite try_except_catches_KeyError.
  - apply decode_error_only_try, decode_error_only_bind.
    + intros e. discriminate.
    + intros found. apply decode_error_only_for_each. intros io'.
      apply decode_error_only_bind; [apply decode_error_only_decode|].
      intros line. apply decode_error_only_print.
Qed.

(** Lines 143-147 return the two failing results, unless a line of the
    summary does not decode. *)
Lemma early_exit_outcome proc_info proc_output :
  (early_exit proc_info proc_output).2 = inr (FailResult, FailResult)
  ∨ (early_exit proc_info proc_output).2 = inl UnicodeDecodeError.
Proof.
  unfold early_exit. rewrite !outcome_bind. cbn [print snd].
  pose proof (summary_raises_only_UnicodeDecodeError proc_info proc_output) as H.
  destruct (_print_process_output_summary proc_info proc_output).2 as [e|[]] eqn:Hs.
  - right. by rewrite (H e).
  - by left.
Qed.

Lemma early_exit_of_ascii_output proc_info proc_output :
  Forall (fun io => is_ascii (text io) = true) proc_output →
  (early_exit proc_info proc_output).2 = inr (FailResult, FailResult).
Proof.
  intros Hascii. unfold early_exit. rewrite !outcome_bind. cbn [print snd].
  by rewrite summary_of_ascii_output.
Qed.

(** ** The primary thread *)

Section Primary.

Variable parse_launch_arguments : list string → py (list (string * string)).
Variable self : _RunnerWorker.t.

Local Abbreviation exec := (exec parse_launch_arguments self).
Local Abbreviation step := (step parse_launch_arguments self).

Ltac step_cases H :=
  unfold _RunnerWorker.step in H;
  repeat (case_match; try discriminate H);
  injection H as <-;
  cbn [main thread _processes_launched _tests_completed _results
       shutdown_requested now bound proc_info proc_output stdout
       set_main set_thread set_processes_launched set_tests_completed
       set_results shutdown advance set_bound set_proc_info
       set_proc_output write] in *;
  repeat match goal with
         | H : ?f ?s = _ |- context [?f ?s] => rewrite H
         end.

(** Once past the binding step, the calls of [bind] made are those of
    lines 80-113, as far as they went. *)
Lemma run_binds_both_suites tr s :
  exec tr initial = Some s →
  bound s = match main s with
            | at_bind => []
            | _ => (binding parse_launch_arguments self).1
            end.
Proof.
  revert tr s.
  apply (exec_ind parse_launch_arguments self
           (fun _ s => bound s = match main s with
                                 | at_bind => []
                                 | _ => (binding parse_launch_arguments self).1
                                 end)); [done|].
  intros tr s l s' _ IH Hstep.
  destruct l; step_cases Hstep; congruence.
Qed.

(** What the calls of [bind] are when the lines before them return. *)
Lemma binding_calls context parsed_launch_arguments :
  normalized_test_description (_test_run self) = inr context →
  parse_launch_arguments (_launch_file_arguments self)
    = inr parsed_launch_arguments →
  (∀ attributes kwargs,
     bind (_test_run self) pre_shutdown_tests attributes kwargs = inr tt) →
  (binding parse_launch_arguments self).1
  = bind_tests context parsed_launch_arguments.
Proof.
  intros Hcontext Hparsed Hbind. unfold binding. rewrite Hcontext, Hparsed.
  rewrite bind_tests_calls. cbn [bind_each bound_suite]. rewrite Hbind.
  cbn [fst snd]. by destruct (bind (_test_run self) _ _ _).
Qed.

(** No call of [bind] is made when the lines before them raise. *)
Lemma binding_raised_before :
  (∃ e, normalized_test_description (_test_run self) = inl e)
  ∨ (∃ e, parse_launch_arguments (_launch_file_arguments self) = inl e) →
  (binding parse_launch_arguments self).1 = [].
Proof.
  unfold binding. intros [[e He]|[e He]]; rewrite He; [done|].
  by destruct (normalized_test_description _).
Qed.

(** Without a call of the readiness callback the readiness signal stays
    unset and the wait cannot return [True]. *)
Lemma readiness_needs_ready_fn tr s :
  exec tr initial = Some s →
  ready_fn ∉ tr →
  _processes_launched s = false ∧ wait_returns true ∉ tr.
Proof.
  revert tr s.
  apply (exec_ind parse_launch_arguments self
           (fun tr s => ready_fn ∉ tr →
              _processes_launched s = false ∧ wait_returns true ∉ tr)).
  { split; [done|apply not_elem_of_nil]. }
  intros tr s l s' _ IH Hstep Hready.
  rewrite not_elem_of_app, not_elem_of_cons in Hready.
  destruct Hready as (Htr & Hl & _). destruct (IH Htr) as [Hflag Hwait].
  rewrite not_elem_of_app, not_elem_of_cons.
  destruct l; step_cases Hstep; try done; repeat split; try done.
  all: try apply not_elem_of_nil.
  all: congruence.
Qed.

(** While the completion signal is unset, the post-shutdown suite has not
    run and [run] can only have ended through lines 143-147, or before the
    check with an exception out of lines 66-138. *)
Lemma unset_completion_bars_post_tests tr s :
  exec tr initial = Some s →
  _tests_completed s = false →
  main s ≠ at_post_tests
  ∧ (∀ r, main s ≠ at_return r)
  ∧ (∀ r, main_post_tests r ∉ tr)
  ∧ (∀ o, main s = finished o →
          (main_early_exit ∈ tr
           ∧ o = (early_exit (proc_info s) (proc_output s)).2)
          ∨ ∃ e, o = inl e
                 ∧ raised_at_launch parse_launch_arguments self e tr).
Proof.
  revert tr s.
  apply (exec_ind parse_launch_arguments self
           (fun tr s => _tests_completed s = false →
              main s ≠ at_post_tests
              ∧ (∀ r, main s ≠ at_return r)
              ∧ (∀ r, main_post_tests r ∉ tr)
              ∧ (∀ o, main s = finished o →
                      (main_early_exit ∈ tr
                       ∧ o = (early_exit (proc_info s) (proc_output s)).2)
                      ∨ ∃ e, o = inl e
                             ∧ raised_at_launch parse_launch_arguments self
                                 e tr))).
  { repeat split; try done. intros r. apply not_elem_of_nil. }
  intros tr s l s' _ IH Hstep Hc.
  assert (Hlater : ∀ l' o,
            ((main_early_exit ∈ tr
              ∧ o = (early_exit (proc_info s) (proc_output s)).2)
             ∨ ∃ e, o = inl e
                    ∧ raised_at_launch parse_launch_arguments self e tr) →
            (main_early_exit ∈ tr ++ [l']
             ∧ o = (early_exit (proc_info s) (proc_output s)).2)
            ∨ ∃ e, o = inl e
                   ∧ raised_at_launch parse_launch_arguments self e
                       (tr ++ [l'])).
  { intros l' o [[Hin Ho]|(e & Ho & Hraised)].
    - left. split; [|done]. apply elem_of_app. by left.
    - right. exists e. split; [done|]. unfold raised_at_launch in *.
      rewrite !elem_of_app. tauto. }
  assert (Hpost : ∀ l', (∀ r, l' ≠ main_post_tests r) →
            (∀ r, main_post_tests r ∉ tr) →
            ∀ r, main_post_tests r ∉ tr ++ [l']).
  { intros l' Hl' Htr r. rewrite not_elem_of_app, not_elem_of_cons.
    repeat split; [apply Htr|apply not_eq_sym, Hl'|apply not_elem_of_nil]. }
  destruct l; step_cases Hstep; try discriminate Hc;
    destruct (IH Hc) as (Hn1 & Hn2 & Hn3 & Hfin);
    try (by destruct Hn1); try (by edestruct Hn2).
  all: try match goal with
           | H : negb (_tests_completed _) = false |- _ =>
               rewrite Hc in H; discriminate H
           end.
  all: repeat split; try done; try (apply Hpost; done).
  all: intros o Ho.
  all: try (apply Hlater, Hfin; congruence).
  all: try discriminate Ho.
  all: injection Ho as <-.
  4: { left. split; [|done]. apply elem_of_app. right. apply list_elem_of_here. }
  all: right; exists e; split; [done|]; unfold raised_at_launch.
  all: rewrite !elem_of_app, !list_elem_of_singleton; tauto.
Qed.

Lemma path_without_readiness pc completed results moves :
  thread_path pc completed results moves →
  wait_returns true ∉ moves →
  completed = false ∧ ∀ r, thread_tests r ∉ moves.
Proof.
  intros Hpath Hwait.
  inversion Hpath; subst;
    try (exfalso; apply Hwait;
         apply list_elem_of_further, list_elem_of_here).
  all: split; [done|]; intros r' Hin.
  all: repeat (apply elem_of_cons in Hin as [Hin|Hin]; [discriminate Hin|]).
  all: by apply elem_of_nil in Hin.
Qed.

(** A run in which the readiness callback is never invoked: neither suite
    runs, the completion signal stays unset, and [run] can only end
    through lines 143-147, or before the check with an exception out of
    lines 66-138. *)
Lemma startup_timeout_runs_no_suite tr s :
  exec tr initial = Some s →
  ready_fn ∉ tr →
  (∀ r, thread_tests r ∉ tr)
  ∧ (∀ r, main_post_tests r ∉ tr)
  ∧ _tests_completed s = false
  ∧ (∀ o, main s = finished o →
          (main_early_exit ∈ tr
           ∧ o = (early_exit (proc_info s) (proc_output s)).2)
          ∨ ∃ e, o = inl e
                 ∧ raised_at_launch parse_launch_arguments self e tr).
Proof.
  intros Hs Hready.
  destruct (readiness_needs_ready_fn tr s Hs Hready) as [_ Hwait].
  pose proof (thread_follows_run_test _ _ tr s Hs) as Hpath.
  apply path_without_readiness in Hpath as [Hc Htests].
  2: { by rewrite elem_of_thread_moves. }
  destruct (unset_completion_bars_post_tests tr s Hs Hc) as (_ & _ & Hpost & Hfin).
  repeat split; try done.
  intros r Hin. apply (Htests r). by rewrite elem_of_thread_moves.
Qed.

(** From the early exit the only move of the primary thread is lines
    143-147; it is always possible, and nothing that happens meanwhile
    changes what it yields. *)
Lemma early_exit_is_final s0 tr s :
  main s0 = at_early_exit →
  exec tr s0 = Some s →
  (∀ r, main_post_tests r ∉ tr)
  ∧ proc_info s = proc_info s0 ∧ proc_output s = proc_output s0
  ∧ (main s = at_early_exit
     ∨ main s = finished (early_exit (proc_info s0) (proc_output s0)).2).
Proof.
  intros H0. revert s. induction tr as [|l tr IH] using rev_ind; intros s Hs.
  { injection Hs as <-. repeat split; try done; [|by left].
    intros r. apply not_elem_of_nil. }
  apply exec_snoc in Hs as (s1 & Hs1 & Hstep).
  destruct (IH s1 Hs1) as (Hpost & Hpi & Hpo & Hmain).
  assert (Hsnoc : ∀ r, l ≠ main_post_tests r → main_post_tests r ∉ tr ++ [l]).
  { intros r Hl. rewrite not_elem_of_app, not_elem_of_cons.
    repeat split; [apply Hpost|by apply not_eq_sym|apply not_elem_of_nil]. }
  destruct l; step_cases Hstep; rewrite ?Hpi, ?Hpo.
  all: try (destruct Hmain as [Hmain|Hmain]; discriminate Hmain).
  all: repeat split; try done; try (intros r'; by apply Hsnoc).
  all: try (by right); try (by left).
  all: destruct Hmain as [Hmain|Hmain]; [by left|right; congruence].
Qed.

Lemma early_exit_is_possible s :
  main s = at_early_exit →
  ∃ s', step main_early_exit s = Some s'
        ∧ main s' = finished (early_exit (proc_info s) (proc_output s)).2.
Proof. intros Hs. unfold _RunnerWorker.step. rewrite Hs. by eexists. Qed.

(** The check of line 140, when the completion signal is unset, leads to
    the early exit. *)
Lemma unset_check_takes_early_exit s s' :
  main s = at_check →
  _tests_completed s = false →
  step main_check s = Some s' →
  main s' = at_early_exit
  ∧ proc_info s' = proc_info s ∧ proc_output s' = proc_output s.
Proof.
  intros Hmain Hc Hstep. unfold _RunnerWorker.step in Hstep.
  rewrite Hmain, Hc in Hstep. by injection Hstep as <-.
Qed.

End Primary.

(** A run in which the readiness callback is never invoked returns the two
    failing results whenever it returns, provided the captured output is
    ASCII; it raises only what lines 66-138 raised. *)
Lemma startup_timeout_returns_failing_results
    (parse_launch_arguments : list string → py (list (string * string)))
    (self : _RunnerWorker.t) (tr : list label) (s : state)
    (o : py (result * result)) :
  exec parse_launch_arguments self tr initial = Some s →
  ready_fn ∉ tr →
  Forall (fun io => is_ascii (text io) = true) (proc_output s) →
  main s = finished o →
  o = inr (FailResult, FailResult)
  ∨ ∃ e, o = inl e ∧ raised_at_launch parse_launch_arguments self e tr.
Proof.
  intros Hs Hready Hascii Ho.
  destruct (startup_timeout_runs_no_suite _ _ tr s Hs Hready)
    as (_ & _ & _ & Hfin).
  destruct (Hfin o Ho) as [[_ ->]|Hraised]; [left|by right].
  by apply early_exit_of_ascii_output.
Qed.

(** C2, amended: the claim takes the state of the completion signal when
    the supervisor's [run] returns, the code takes it at the check of line
    140, which comes later; and what lines 143-147 yield is stated for
    captured output that is ASCII.  When the primary thread's check, made
    after the supervisor's [run] has returned, finds the completion signal
    unset, the post-shutdown suite never runs and [run] ends through the
    early exit: whatever moves follow, the primary thread is at the early
    exit, from where lines 143-147 can always be executed, or has ended
    with what these lines yield for the accumulators as they were at the
    check, which is the two failing results whenever the captured output
    is ASCII. *)
Theorem unset_check_ends_in_early_exit
    (parse_launch_arguments : list string → py (list (string * string)))
    (self : _RunnerWorker.t) (s : state) (tr : list label) (s' : state) :
  main s = at_check →
  _tests_completed s = false →
  exec parse_launch_arguments self (main_check :: tr) s = Some s' →
  (∀ r, main_post_tests r ∉ tr)
  ∧ ((main s' = at_early_exit
      ∧ ∃ s'', step parse_launch_arguments self main_early_exit s' = Some s''
               ∧ main s'' = finished (early_exit (proc_info s) (proc_output s)).2)
     ∨ main s' = finished (early_exit (proc_info s) (proc_output s)).2)
  ∧ (Forall (fun io => is_ascii (text io) = true) (proc_output s) →
     (early_exit (proc_info s) (proc_output s)).2
     = inr (FailResult, FailResult)).
Proof.
  intros Hmain Hc Hs'. cbn [exec] in Hs'.
  destruct (step parse_launch_arguments self main_check s) as [s1|] eqn:Hstep;
    [|discriminate Hs'].
  destruct (unset_check_takes_early_exit _ _ s s1 Hmain Hc Hstep)
    as (Hmain1 & Hpi & Hpo).
  destruct (early_exit_is_final _ _ s1 tr s' Hmain1 Hs')
    as (Hpost & Hpi' & Hpo' & Hfin).
  rewrite Hpi, Hpo in *. split; [done|]. split.
  - destruct Hfin as [Hfin|Hfin]; [left|by right]. split; [done|].
    destruct (early_exit_is_possible parse_launch_arguments self s' Hfin)
      as (s'' & Hs'' & Hmain''). exists s''. by rewrite Hpi', Hpo' in Hmain''.
  - apply early_exit_of_ascii_output.
Qed.

Lemma unset_check_ends_in_early_exit_witness :
  let worker :=
    {| _test_run :=
         {| test_description_function :=
              Function "generate_test_description"
                (ArgSpec ["ready_fn"] 0 false false [] []) false (mret ∅);
            bind := fun _ _ _ => mret tt |};
       _launch_file_arguments := [];
       debug := false |} in
  let before :=
    [main_bind; main_start_thread; main_enter_service_run; thread_wait;
     ready_fn; wait_returns true;
     on_output {| io_action := 0; text := [x68; x69]%byte |};
     on_exit {| action := 0; process_name := "talker"; returncode := 1 |};
     service_stops] in
  let tr := [thread_tests (inr (TestResult 1 0 0)); main_early_exit] in
  ∃ s s',
    exec (fun _ => mret []) worker before initial = Some s
    ∧ exec (fun _ => mret []) worker (main_check :: tr) s = Some s'
    ∧ (∀ r, main_post_tests r ∉ tr)
    ∧ (early_exit (proc_info s) (proc_output s)).2
      = inr (FailResult, FailResult)
    ∧ main s' = finished (inr (FailResult, FailResult)).
Proof.
  intros worker before tr.
  let r := eval vm_compute in (exec (fun _ => mret []) worker before initial) in
  match r with
  | Some ?at_the_check => pose (s := at_the_check)
  end.
  let r := eval vm_compute in (exec (fun _ => mret []) worker (main_check :: tr) s) in
  match r with
  | Some ?at_the_end => pose (s' := at_the_end)
  end.
  exists s, s'.
  assert (Hs' : exec (fun _ => mret []) worker (main_check :: tr) s = Some s')
    by (vm_compute; reflexivity).
  destruct (unset_check_ends_in_early_exit
              (fun _ => mret []) worker s tr s' eq_refl eq_refl Hs')
    as (Hpost & _ & Hascii).
  split; [vm_compute; reflexivity|]. split; [exact Hs'|].
  split; [exact Hpost|]. split; [|reflexivity].
  apply Hascii. repeat constructor.
Defined.

(** C2 as stated fails: the supervisor's [run] returns while the
    completion signal is unset (the processes died while the pre-shutdown
    suite was running), the suite ends and the signal is set before the
    primary thread checks it; the post-shutdown suite runs and [run]
    returns the results of the two suites. *)
Lemma completion_can_be_set_before_the_check :
  let worker :=
    {| _test_run :=
         {| test_description_function :=
              Function "generate_test_description"
                (ArgSpec ["ready_fn"] 0 false false [] []) false (mret ∅);
            bind := fun _ _ _ => mret tt |};
       _launch_file_arguments := [];
       debug := false |} in
  let before :=
    [main_bind; main_start_thread; main_enter_service_run; thread_wait;
     ready_fn; wait_returns true; service_stops] in
  let after :=
    [thread_tests (inr (TestResult 1 0 0)); thread_set_completed; main_check;
     main_post_tests (inr (TestResult 1 0 0)); main_return] in
  (∃ s, exec (fun _ => mret []) worker before initial = Some s
        ∧ main s = at_check
        ∧ _tests_completed s = false)
  ∧ main_post_tests (inr (TestResult 1 0 0)) ∈ after
  ∧ run (fun _ => mret []) worker (before ++ after)
    = Some (inr (TestResult 1 0 0, TestResult 1 0 0)).
Proof.
  intros worker before after. split; [|split].
  - eexists. split; [vm_compute; reflexivity|]. by split.
  - do 3 apply list_elem_of_further. apply list_elem_of_here.
  - vm_compute. reflexivity.
Qed.

(** C1, at a failing input: the readiness callback is never invoked, a
    process writes the byte 255 and exits with code 1, the wait times out
    after 15 units and the secondary thread requests shutdown.  Neither
    suite runs, but [run] does not return the two failing results: the
    summary of lines 143-145 raises [UnicodeDecodeError]. *)
Theorem startup_timeout_raises_on_non_ascii_output :
  let worker :=
    {| _test_run :=
         {| test_description_function :=
              Function "generate_test_description"
                (ArgSpec ["ready_fn"] 0 false false [] []) false (mret ∅);
            bind := fun _ _ _ => mret tt |};
       _launch_file_arguments := [];
       debug := false |} in
  let tr :=
    [main_bind; main_start_thread; main_enter_service_run; thread_wait;
     on_output {| io_action := 0; text := [xff]%byte |};
     on_exit {| action := 0; process_name := "talker"; returncode := 1 |}]
    ++ replicate 15 tick
    ++ [wait_returns false; thread_print_timeout; thread_shutdown;
        service_run_returns; main_check; main_early_exit] in
  (ready_fn ∉ tr)
  ∧ (∀ r, thread_tests r ∉ tr)
  ∧ (∀ r, main_post_tests r ∉ tr)
  ∧ run (fun _ => mret []) worker tr = Some (raise UnicodeDecodeError).
Proof.
  intros worker tr.
  assert (Hs : ∃ s, exec (fun _ => mret []) worker tr initial = Some s)
    by (eexists; vm_compute; reflexivity).
  destruct Hs as [s Hs].
  assert (Hready : ready_fn ∉ tr).
  { intros Hin. apply list_elem_of_In in Hin. vm_compute in Hin.
    intuition discriminate. }
  destruct (startup_timeout_runs_no_suite _ _ tr s Hs Hready)
    as (Htests & Hpost & _).
  repeat split; try done; vm_compute; reflexivity.
Qed.

(** The early exit with output that does not decode: the readiness signal
    is seen and the pre-shutdown suite is running when a process that wrote
    the byte 255 exits with code 1 and the supervisor's [run] returns on
    its own.  The check finds the completion signal unset and the
    post-shutdown suite does not run, but the summary of lines 143-145
    raises [UnicodeDecodeError] out of [run]. *)
Example early_exit_raises_on_non_ascii_output :
  let worker :=
    {| _test_run :=
         {| test_description_function :=
              Function "generate_test_description"
                (ArgSpec ["ready_fn"] 0 false false [] []) false (mret ∅);
            bind := fun _ _ _ => mret tt |};
       _launch_file_arguments := [];
       debug := false |} in
  let before :=
    [main_bind; main_start_thread; main_enter_service_run; thread_wait;
     ready_fn; wait_returns true;
     on_output {| io_action := 0; text := [xff]%byte |};
     on_exit {| action := 0; process_name := "talker"; returncode := 1 |};
     service_stops] in
  (∃ s, exec (fun _ => mret []) worker before initial = Some s
        ∧ main s = at_check
        ∧ thread s = at_tests
        ∧ _tests_completed s = false)
  ∧ run (fun _ => mret []) worker (before ++ [main_check; main_early_exit])
    = Some (raise UnicodeDecodeError).
Proof.
  intros worker before. split.
  - eexists. split; [vm_compute; reflexivity|]. by repeat split.
  - vm_compute. reflexivity.
Qed.

(** The same two runs with a process that wrote "hi": [run] returns the two
    failing results. *)
Example startup_timeout_with_ascii_output :
  let worker :=
    {| _test_run :=
         {| test_description_function :=
              Function "generate_test_description"
                (ArgSpec ["ready_fn"] 0 false false [] []) false (mret ∅);
            bind := fun _ _ _ => mret tt |};
       _launch_file_arguments := [];
       debug := false |} in
  run (fun _ => mret []) worker
    ([main_bind; main_start_thread; main_enter_service_run; thread_wait;
      on_output {| io_action := 0; text := [x68; x69]%byte |};
      on_exit {| action := 0; process_name := "talker"; returncode := 1 |}]
     ++ replicate 15 tick
     ++ [wait_returns false; thread_print_timeout; thread_shutdown;
         service_run_returns; main_check; main_early_exit])
  = Some (inr (FailResult, FailResult))
  ∧ run (fun _ => mret []) worker
      [main_bind; main_start_thread; main_enter_service_run; thread_wait;
       ready_fn; wait_returns true;
       on_output {| io_action := 0; text := [x68; x69]%byte |};
       on_exit {| action := 0; process_name := "talker"; returncode := 1 |};
       service_stops; main_check; main_early_exit]
    = Some (inr (FailResult, FailResult)).
Proof. split; vm_compute; reflexivity. Qed.

(** A run without incident: both suites run and [run] returns their
    results. *)
Example run_without_incident :
  let worker :=
    {| _test_run :=
         {| test_description_function :=
              Function "generate_test_description"
                (ArgSpec ["ready_fn"] 0 false false [] []) false (mret ∅);
            bind := fun _ _ _ => mret tt |};
       _launch_file_arguments := [];
       debug := false |} in
  run (fun _ => mret []) worker
    [main_bind; main_start_thread; main_enter_service_run; thread_wait;
     ready_fn; wait_returns true; thread_tests (inr (TestResult 1 0 0));
     thread_set_completed; thread_shutdown; service_run_returns; main_check;
     main_post_tests (inr (TestResult 1 0 0)); main_return]
  = Some (inr (TestResult 1 0 0, TestResult 1 0 0)).
Proof. vm_compute. reflexivity. Qed.


(** * Further properties *)

(** ** The parsed launch arguments *)

Lemma make_test_args_snoc (parsed : list (string * string)) (k v : string) :
  make_test_args (parsed ++ [(k, v)]) = <[k := v]> (make_test_args parsed).
Proof. unfold make_test_args. by rewrite foldl_app. Qed.

Lemma make_test_args_absent (parsed : list (string * string)) (k : string) :
  k ∉ parsed.*1 → make_test_args parsed !! k = None.
Proof.
  induction parsed as [|[k' v'] parsed IH] using rev_ind; intros Hk; [done|].
  rewrite make_test_args_snoc. rewrite fmap_app, not_elem_of_app in Hk.
  destruct Hk as [Hk Hk']. cbn in Hk'. rewrite not_elem_of_cons in Hk'.
  rewrite lookup_insert_ne by (intros ->; by destruct Hk').
  by apply IH.
Qed.

(** X1: [test_args] maps a name to the value of its last occurrence in the
    parsed launch arguments (the loop of lines 76-78 overwrites), and has
    no entry for a name that does not occur. *)
Theorem test_args_keeps_last_occurrence
    (before after : list (string * string)) (k v : string) :
  k ∉ after.*1 →
  make_test_args (before ++ (k, v) :: after) !! k = Some v
  ∧ ∀ k', k' ∉ (before ++ (k, v) :: after).*1 →
          make_test_args (before ++ (k, v) :: after) !! k' = None.
Proof.
  intros Hk. split; [|intros k'; apply make_test_args_absent].
  induction after as [|[k' v'] after IH] using rev_ind.
  - by rewrite make_test_args_snoc, lookup_insert_eq.
  - rewrite fmap_app, not_elem_of_app in Hk. destruct Hk as [Hk Hk'].
    cbn in Hk'. rewrite not_elem_of_cons in Hk'.
    replace (before ++ (k, v) :: after ++ [(k', v')])
      with ((before ++ (k, v) :: after) ++ [(k', v')])
      by (by rewrite <- app_assoc).
    rewrite make_test_args_snoc, lookup_insert_ne by (intros ->; by destruct Hk').
    by apply IH.
Qed.

Lemma test_args_keeps_last_occurrence_witness :
  make_test_args [("mode", "slow"); ("dut", "talker"); ("mode", "fast")]
    !! "mode" = Some "fast".
Proof.
  refine (proj1 (test_args_keeps_last_occurrence
                   [("mode", "slow"); ("dut", "talker")] [] "mode" "fast" _)).
  apply not_elem_of_nil.
Defined.

(** X2: lines 80-113 bind two suites, the pre-shutdown suite and then the
    post-shutdown suite; the keyword arguments injected into each have the
    names of the context and the three reserved names, and no other, and
    the injected attributes have the three reserved names only. *)
Theorem injected_args_names
    (test_context : gmap string value)
    (parsed_launch_arguments : list (string * string)) :
  ∃ pre post,
    bind_tests test_context parsed_launch_arguments = [pre; post]
    ∧ bound_suite pre = pre_shutdown_tests
    ∧ bound_suite post = post_shutdown_tests
    ∧ dom (injected_args pre)
      = dom test_context ∪ {[ "proc_info"; "proc_output"; "test_args" ]}
    ∧ dom (injected_args post)
      = dom test_context ∪ {[ "proc_info"; "proc_output"; "test_args" ]}
    ∧ dom (injected_attributes pre)
      = {[ "proc_info"; "proc_output"; "test_args" ]}
    ∧ dom (injected_attributes post)
      = {[ "proc_info"; "proc_output"; "test_args" ]}.
Proof.
  rewrite bind_tests_calls. eexists _, _.
  split; [reflexivity|]. split; [reflexivity|]. split; [reflexivity|].
  cbn [injected_args injected_attributes]. unfold dict.
  rewrite !dom_union_L, !dom_insert_L, !dom_singleton_L.
  rewrite !(comm_L (∪) _ (dom test_context)).
  repeat split; try (f_equal; by rewrite assoc_L); by rewrite assoc_L.
Qed.

(** ** The diagnostic summary *)

Lemma for_each_returns_inv {A} (xs : list A) (body : A → out unit) :
  (for_each xs body).2 = inr tt → ∀ x, x ∈ xs → (body x).2 = inr tt.
Proof.
  induction xs as [|x xs IH]; intros Hret y Hy; [by apply elem_of_nil in Hy|].
  cbn [for_each] in Hret. rewrite outcome_bind in Hret.
  destruct (body x).2 as [e|[]] eqn:Hx; [discriminate Hret|].
  apply elem_of_cons in Hy as [->|Hy]; [done|by apply IH].
Qed.

Lemma summary_of_decodable_output (proc_info : list ProcessExited)
    (proc_output : list ProcessIO) :
  decodable proc_info proc_output →
  _print_process_output_summary proc_info proc_output
  = (concat (map (section_of proc_output)
               (filter (fun proc => returncode proc ≠ 0%Z) proc_info)),
     inr tt).
Proof.
  intros Hdec. unfold _print_process_output_summary.
  apply for_each_returns. intros process Hprocess.
  apply list_elem_of_filter in Hprocess as [Hfailed Hin].
  unfold section_of, proc_output_getitem.
  set (lines := filter (fun io => io_action io = action process) proc_output).
  assert (Hlines : Forall (fun io => is_ascii (text io) = true) lines).
  { apply Forall_forall. intros io Hio. unfold lines in Hio.
    apply list_elem_of_filter in Hio as [Haction Hio]. by eapply Hdec. }
  clearbody lines. destruct lines as [|io rest]; [reflexivity|].
  unfold lift, mbind, out_bind, try_except_KeyError. cbn [fst snd mret py_ret].
  rewrite print_output_lines by done. reflexivity.
Qed.

Lemma outcome_try (body : out unit) :
  (try_except_KeyError body).2
  = match body.2 with
    | inl KeyError => inr tt
    | o => o
    end.
Proof.
  unfold try_except_KeyError. by destruct body as [printed [[]|[]]].
Qed.

Lemma summary_returns_decodable (proc_info : list ProcessExited)
    (proc_output : list ProcessIO) :
  (_print_process_output_summary proc_info proc_output).2 = inr tt →
  decodable proc_info proc_output.
Proof.
  unfold _print_process_output_summary.
  intros Hret process io Hin Hfailed Hio Haction.
  pose proof (for_each_returns_inv _ _ Hret process) as Hbody.
  assert (Hp : process ∈ filter (fun proc => returncode proc ≠ 0%Z) proc_info)
    by (by apply list_elem_of_filter).
  specialize (Hbody Hp). clear Hp Hret. cbn beta in Hbody.
  rewrite !outcome_bind in Hbody. cbn [print snd] in Hbody.
  rewrite outcome_try, outcome_bind in Hbody.
  unfold proc_output_getitem in Hbody.
  assert (Hline : io ∈ filter (fun io => io_action io = action process) proc_output)
    by (by apply list_elem_of_filter).
  destruct (filter _ proc_output) as [|io0 lines];
    [by apply elem_of_nil in Hline|].
  cbn [lift snd mret py_ret] in Hbody.
  set (loop := for_each (io0 :: lines) (fun io =>
                 line ← lift (decode_ascii (text io)); print line)) in *.
  assert (Hd : decode_error_only loop).
  { apply decode_error_only_for_each. intros io'.
    apply decode_error_only_bind; [apply decode_error_only_decode|].
    intros line. apply decode_error_only_print. }
  assert (Hloop : loop.2 = inr tt).
  { destruct loop.2 as [e|[]] eqn:Hl; [|done].
    rewrite (Hd e Hl) in Hbody. discriminate Hbody. }
  pose proof (for_each_returns_inv _ _ Hloop io Hline) as Hdecode.
  cbn beta in Hdecode. rewrite outcome_bind in Hdecode.
  unfold lift, decode_ascii in Hdecode.
  by destruct (is_ascii (text io)).
Qed.

(** X3: the summary returns exactly when every captured line of every
    process that exited with a non-zero code is ASCII; the output of the
    processes that exited with code 0 plays no part. *)
Theorem summary_returns_iff_failed_output_is_ascii
    (proc_info : list ProcessExited) (proc_output : list ProcessIO) :
  (_print_process_output_summary proc_info proc_output).2 = inr tt
  ↔ decodable proc_info proc_output.
Proof.
  split; [apply summary_returns_decodable|].
  intros Hdec. by rewrite summary_of_decodable_output.
Qed.

(** X4: when the captured lines of the failed processes are ASCII, the
    summary prints, for each process with a non-zero exit code and in the
    order of the accumulator, its exit line, the header, its captured lines
    in order and the footer, and nothing for the other processes. *)
Theorem summary_prints_sections_of_failed_processes
    (proc_info : list ProcessExited) (proc_output : list ProcessIO) :
  decodable proc_info proc_output →
  _print_process_output_summary proc_info proc_output
  = (concat (map (section_of proc_output)
               (filter (fun proc => returncode proc ≠ 0%Z) proc_info)),
     inr tt).
Proof. apply summary_of_decodable_output. Qed.

Lemma summary_prints_sections_of_failed_processes_witness :
  _print_process_output_summary
    [ {| action := 0; process_name := "listener"; returncode := 0 |};
      {| action := 1; process_name := "talker"; returncode := -11 |} ]
    [ {| io_action := 0; text := [xff]%byte |};
      {| io_action := 1; text := [x68; x69]%byte |};
      {| io_action := 1; text := [x6f; x6b]%byte |} ]
  = ([ "Process 'talker' exited with -11";
       "##### 'talker' output #####";
       "hi"; "ok";
       "###########################" ],
     inr tt).
Proof.
  refine (summary_prints_sections_of_failed_processes _ _ _).
  intros process io Hprocess Hfailed Hio Haction.
  apply elem_of_cons in Hprocess as [->|Hprocess]; [by destruct Hfailed|].
  apply elem_of_cons in Hprocess as [->|Hprocess];
    [|by apply elem_of_nil in Hprocess].
  apply elem_of_cons in Hio as [->|Hio]; [discriminate Haction|].
  apply elem_of_cons in Hio as [->|Hio]; [reflexivity|].
  apply elem_of_cons in Hio as [->|Hio]; [reflexivity|].
  by apply elem_of_nil in Hio.
Defined.

(** X5: whatever the accumulators hold, the summary returns or raises
    [UnicodeDecodeError]; the [KeyError] of a process without output never
    leaves it. *)
Theorem summary_returns_or_raises_UnicodeDecodeError
    (proc_info : list ProcessExited) (proc_output : list ProcessIO) :
  (_print_process_output_summary proc_info proc_output).2 = inr tt
  ∨ (_print_process_output_summary proc_info proc_output).2
    = inl UnicodeDecodeError.
Proof.
  pose proof (summary_raises_only_UnicodeDecodeError proc_info proc_output) as H.
  destruct (_print_process_output_summary proc_info proc_output).2
    as [e|[]] eqn:Hs; [right|by left]. by rewrite (H e Hs).
Qed.

Lemma length_append (s1 s2 : string) :
  String.length (s1 +:+ s2) = String.length s1 + String.length s2.
Proof.
  induction s1 as [|c s1 IH]; [done|].
  change (String c s1 +:+ s2) with (String c (s1 +:+ s2)).
  cbn [String.length]. by rewrite IH.
Qed.

Lemma length_str_mul (n : nat) : String.length (str_mul "#" n) = n.
Proof.
  induction n as [|n IH]; [done|].
  change (str_mul "#" (S n)) with (String "#" (str_mul "#" n)).
  cbn [String.length]. by rewrite IH.
Qed.

(** X6: a process that exited with a non-zero code and has no captured
    line gets its exit line, the header and the footer, with nothing
    between them, and the summary returns; the footer is a row of [#] as
    long as the header. *)
Theorem failed_process_without_output_gets_empty_section
    (process : ProcessExited) (proc_output : list ProcessIO) :
  returncode process ≠ 0%Z →
  Forall (fun io => io_action io ≠ action process) proc_output →
  ∃ header footer,
    _print_process_output_summary [process] proc_output
    = ([ "Process '" +:+ process_name process +:+ "' exited with "
           +:+ pretty (returncode process);
         header; footer ],
       inr tt)
    ∧ header = "##### '" +:+ process_name process +:+ "' output #####"
    ∧ footer = str_mul "#" (String.length header)
    ∧ String.length footer = String.length header.
Proof.
  intros Hfailed Hnone. eexists _, _. split; [|split; [reflexivity|]].
  - rewrite summary_of_decodable_output.
    + rewrite filter_cons_True, filter_nil by done. cbn [map concat].
      unfold section_of.
      replace (filter (fun io => io_action io = action process) proc_output)
        with (@nil ProcessIO); [reflexivity|].
      symmetry. induction Hnone as [|io rest Hio _ IH]; [done|].
      by rewrite filter_cons_False.
    + intros p io Hp _ Hio Haction. apply list_elem_of_singleton in Hp as ->.
      rewrite Forall_forall in Hnone. by destruct (Hnone io Hio).
  - assert (Hlen : String.length
               ("##### '" +:+ process_name process +:+ "' output #####")
             = String.length (process_name process) + 21).
    { rewrite !length_append. cbn. lia. }
    rewrite Hlen. split; [reflexivity|]. apply length_str_mul.
Qed.

Lemma failed_process_without_output_gets_empty_section_witness :
  ∃ header footer,
    _print_process_output_summary
      [ {| action := 3; process_name := "talker"; returncode := 2 |} ]
      [ {| io_action := 0; text := [x68; x69]%byte |} ]
    = ([ "Process 'talker' exited with 2"; header; footer ], inr tt)
    ∧ header = "##### 'talker' output #####"
    ∧ footer = str_mul "#" (String.length header)
    ∧ String.length footer = String.length header.
Proof.
  refine (failed_process_without_output_gets_empty_section
            {| action := 3; process_name := "talker"; returncode := 2 |}
            [ {| io_action := 0; text := [x68; x69]%byte |} ] _ _).
  - discriminate.
  - repeat constructor. discriminate.
Defined.

(** ** The path of the primary thread *)

Section PrimaryPath.

Variable parse_launch_arguments : list string → py (list (string * string)).
Variable self : _RunnerWorker.t.

Local Abbreviation exec := (exec parse_launch_arguments self).
Local Abbreviation step := (step parse_launch_arguments self).

Ltac step_cases H :=
  unfold _RunnerWorker.step in H;
  repeat (case_match; try discriminate H);
  injection H as <-;
  cbn [main thread _processes_launched _tests_completed _results
       shutdown_requested now bound proc_info proc_output stdout
       set_main set_thread set_processes_launched set_tests_completed
       set_results shutdown advance set_bound set_proc_info
       set_proc_output write] in *;
  repeat match goal with
         | H : ?f ?s = _ |- context [?f ?s] => rewrite H
         end.

Lemma main_moves_snoc tr l :
  main_moves (tr ++ [l]) = main_moves tr ++ (if of_main l then [l] else []).
Proof. unfold main_moves. rewrite List.filter_app. cbn. by destruct (of_main l). Qed.

Lemma main_moves_app tr1 tr2 :
  main_moves (tr1 ++ tr2) = main_moves tr1 ++ main_moves tr2.
Proof. apply List.filter_app. Qed.

Lemma main_moves_cons l tr :
  main_moves (l :: tr) = if of_main l then l :: main_moves tr else main_moves tr.
Proof. reflexivity. Qed.

Lemma elem_of_main_moves l tr : of_main l = true → l ∈ main_moves tr ↔ l ∈ tr.
Proof.
  intros Hl. unfold main_moves.
  rewrite !list_elem_of_In, List.filter_In. tauto.
Qed.

(** The primary thread follows [run]. *)
Lemma main_follows_run tr s :
  exec tr initial = Some s →
  main_path (binding parse_launch_arguments self).2
    (main s) (_tests_completed s) (_results s) (proc_info s)
    (proc_output s) (main_moves tr).
Proof.
  revert tr s.
  apply (exec_ind parse_launch_arguments self
           (fun tr s => main_path (binding parse_launch_arguments self).2
                          (main s) (_tests_completed s) (_results s)
                          (proc_info s) (proc_output s) (main_moves tr)));
    [constructor|].
  intros tr s l s' Hs IH Hstep. rewrite main_moves_snoc.
  pose proof (thread_follows_run_test _ _ tr s Hs) as Hthread.
  destruct l; cbn [of_main]; rewrite ?app_nil_r; step_cases Hstep.
  all: inversion IH; subst; cbn [app].
  all: try (inversion Hthread; congruence).
  all: try congruence.
  all: try (econstructor; first [eassumption | by left | by right]).
  - by constructor.
  - match goal with u : unit |- _ => destruct u end. by constructor.
  - match goal with
    | H : negb (_tests_completed s) = false |- _ =>
        apply negb_false_iff in H; rewrite H
    end.
    by constructor.
  - by apply (path_run_returned _ ret inactive_results (Some r)).
  - by apply (path_run_returned _ ret inactive_results None).
Qed.

End PrimaryPath.

(** ** The order of the moves *)

Lemma exec_app_inv parse_launch_arguments self tr1 tr2 s s' :
  exec parse_launch_arguments self (tr1 ++ tr2) s = Some s' →
  ∃ s1, exec parse_launch_arguments self tr1 s = Some s1
        ∧ exec parse_launch_arguments self tr2 s1 = Some s'.
Proof.
  rewrite exec_app. destruct (exec parse_launch_arguments self tr1 s) as [s1|];
    [|discriminate]. intros Hs'. by exists s1.
Qed.

Lemma exec_cons_inv parse_launch_arguments self l tr s s' :
  exec parse_launch_arguments self (l :: tr) s = Some s' →
  ∃ s1, step parse_launch_arguments self l s = Some s1
        ∧ exec parse_launch_arguments self tr s1 = Some s'.
Proof.
  cbn [exec]. destruct (step parse_launch_arguments self l s) as [s1|];
    [|discriminate]. intros Hs'. by exists s1.
Qed.

(** Membership in a list that is written out. *)
Ltac elem_cases H :=
  repeat (apply elem_of_cons in H as [H|H];
          [first [discriminate H | injection H as <-]|]);
  try (by apply elem_of_nil in H).

Ltac elem_here :=
  repeat first [apply list_elem_of_here | apply list_elem_of_further].

(** A path on which the pre-shutdown suite has ended. *)
Lemma path_with_tests pc completed results moves r :
  thread_path pc completed results moves →
  thread_tests r ∈ moves →
  wait_returns true ∈ moves
  ∧ (wait_returns false ∉ moves)
  ∧ results = results_after r.
Proof.
  intros Hpath Hin. inversion Hpath; subst; elem_cases Hin.
  all: repeat split; try elem_here.
  all: intros Hno; elem_cases Hno.
Qed.

(** A path on which the completion signal is set. *)
Lemma path_with_completion pc results moves :
  thread_path pc true results moves →
  ∃ r, thread_tests r ∈ moves
       ∧ thread_set_completed ∈ moves
       ∧ results = results_after r.
Proof.
  intros Hpath. inversion Hpath; subst; exists r; repeat split; elem_here.
Qed.

(** X7: the pre-shutdown suite ends only in a run in which, before, the
    readiness callback was invoked and the wait of line 160 returned
    [True]; the wait never times out in such a run. *)
Theorem pre_shutdown_suite_needs_readiness
    (parse_launch_arguments : list string → py (list (string * string)))
    (self : _RunnerWorker.t) (before after : list label) (r : py result)
    (s : state) :
  exec parse_launch_arguments self (before ++ thread_tests r :: after) initial
    = Some s →
  ready_fn ∈ before
  ∧ wait_returns true ∈ before
  ∧ wait_returns false ∉ before ++ thread_tests r :: after.
Proof.
  intros Hs. pose proof (thread_follows_run_test _ _ _ _ Hs) as Hpath.
  apply exec_app_inv in Hs as (s1 & Hs1 & Hs).
  apply exec_cons_inv in Hs as (s2 & Hstep & _).
  pose proof (thread_follows_run_test _ _ _ _ Hs1) as Hbefore.
  unfold step in Hstep. destruct (thread s1) eqn:Hpc; try discriminate Hstep.
  assert (Hwait : wait_returns true ∈ before).
  { apply (elem_of_thread_moves _ before); [done|].
    inversion Hbefore; elem_here. }
  split; [|split; [done|]].
  - destruct (decide (ready_fn ∈ before)) as [|Hno]; [done|].
    by destruct (readiness_needs_ready_fn _ _ before s1 Hs1 Hno) as [_ []].
  - rewrite <- (elem_of_thread_moves (wait_returns false)) by done.
    eapply (path_with_tests _ _ _ _ r); [exact Hpath|].
    apply elem_of_thread_moves; [done|].
    apply elem_of_app. right. apply list_elem_of_here.
Qed.

Lemma pre_shutdown_suite_needs_readiness_witness :
  let worker :=
    {| _test_run :=
         {| test_description_function :=
              Function "generate_test_description"
                (ArgSpec ["ready_fn"] 0 false false [] []) false (mret ∅);
            bind := fun _ _ _ => mret tt |};
       _launch_file_arguments := [];
       debug := false |} in
  let before :=
    [main_bind; main_start_thread; main_enter_service_run; thread_wait;
     tick; ready_fn; wait_returns true] in
  let after := [thread_set_completed] in
  ready_fn ∈ before
  ∧ wait_returns true ∈ before
  ∧ wait_returns false ∉ before ++ thread_tests (inr (TestResult 2 0 0)) :: after.
Proof.
  intros worker before after.
  let r := eval vm_compute in
    (exec (fun _ => mret []) worker
       (before ++ thread_tests (inr (TestResult 2 0 0)) :: after) initial) in
  match r with
  | Some ?at_the_end => pose (s := at_the_end)
  end.
  apply (pre_shutdown_suite_needs_readiness (fun _ => mret []) worker before after
           (inr (TestResult 2 0 0)) s).
  vm_compute. reflexivity.
Defined.

(** X8: the post-shutdown suite runs only after the pre-shutdown suite has
    ended, the completion signal has been set, the supervisor's [run] has
    returned and the check of line 140 has been made; and it runs only
    once. *)
Theorem post_shutdown_suite_runs_last
    (parse_launch_arguments : list string → py (list (string * string)))
    (self : _RunnerWorker.t) (before after : list label) (r : py result)
    (s : state) :
  exec parse_launch_arguments self (before ++ main_post_tests r :: after) initial
    = Some s →
  (∃ r', thread_tests r' ∈ before)
  ∧ thread_set_completed ∈ before
  ∧ (service_run_returns ∈ before ∨ service_stops ∈ before)
  ∧ main_check ∈ before
  ∧ (∀ r', main_post_tests r' ∉ before)
  ∧ (∀ r', main_post_tests r' ∉ after).
Proof.
  intros Hs. pose proof (main_follows_run _ _ _ _ Hs) as Hpath.
  apply exec_app_inv in Hs as (s1 & Hs1 & Hs).
  apply exec_cons_inv in Hs as (s2 & Hstep & _).
  pose proof (main_follows_run _ _ _ _ Hs1) as Hmain.
  pose proof (thread_follows_run_test _ _ _ _ Hs1) as Hthread.
  unfold step in Hstep. destruct (main s1) eqn:Hpc; try discriminate Hstep.
  inversion Hmain; subst.
  match goal with
  | H : service_return _ |- _ => rename H into Hret
  end.
  match goal with
  | H : true = _tests_completed s1 |- _ => rewrite <- H in Hthread
  end.
  match goal with
  | H : _ = main_moves before |- _ => rename H into Hmoves
  end.
  apply path_with_completion in Hthread as (r' & Htests & Hset & _).
  rewrite elem_of_thread_moves in Htests, Hset by done.
  split; [by exists r'|]. split; [done|].
  assert (Hin : ∀ l, of_main l = true → l ∈ main_moves before → l ∈ before)
    by (intros l Hl; by rewrite elem_of_main_moves).
  split; [|split].
  - destruct Hret as [-> | ->]; [left|right]; (apply Hin; [done|]);
      rewrite <- Hmoves; elem_here.
  - apply Hin; [done|]. rewrite <- Hmoves. elem_here.
  - rewrite main_moves_app, main_moves_cons, <- Hmoves in Hpath.
    cbn [of_main app] in Hpath.
    split; intros r'' Hin';
      apply (elem_of_main_moves (main_post_tests r'') _ eq_refl) in Hin'.
    + rewrite <- Hmoves in Hin'. destruct Hret as [-> | ->]; elem_cases Hin'.
    + inversion Hpath; subst;
        match goal with
        | H : _ = main_moves after |- _ => rewrite <- H in Hin'
        end; elem_cases Hin'.
Qed.

Lemma post_shutdown_suite_runs_last_witness :
  let worker :=
    {| _test_run :=
         {| test_description_function :=
              Function "generate_test_description"
                (ArgSpec ["ready_fn"] 0 false false [] []) false (mret ∅);
            bind := fun _ _ _ => mret tt |};
       _launch_file_arguments := [];
       debug := false |} in
  let before :=
    [main_bind; main_start_thread; main_enter_service_run; thread_wait;
     ready_fn; wait_returns true; thread_tests (inr (TestResult 2 0 0));
     thread_set_completed; thread_shutdown; service_run_returns; main_check] in
  let after := [main_return] in
  (∃ r', thread_tests r' ∈ before)
  ∧ thread_set_completed ∈ before
  ∧ (service_run_returns ∈ before ∨ service_stops ∈ before)
  ∧ main_check ∈ before
  ∧ (∀ r', main_post_tests r' ∉ before)
  ∧ (∀ r', main_post_tests r' ∉ after).
Proof.
  intros worker before after.
  let r := eval vm_compute in
    (exec (fun _ => mret []) worker
       (before ++ main_post_tests (inr (TestResult 1 1 0)) :: after) initial) in
  match r with
  | Some ?at_the_end => pose (s := at_the_end)
  end.
  apply (post_shutdown_suite_runs_last (fun _ => mret []) worker before after
           (inr (TestResult 1 1 0)) s).
  vm_compute. reflexivity.
Defined.

(** ** What [run] yields *)

Lemma run_outcomes_cases
    (parse_launch_arguments : list string → py (list (string * string)))
    (self : _RunnerWorker.t) (tr : list label) (s : state)
    (o : py (result * result)) :
  exec parse_launch_arguments self tr initial = Some s →
  main s = finished o →
  (∃ e, o = inl e ∧ raised_at_launch parse_launch_arguments self e tr)
  ∨ (main_early_exit ∈ tr
     ∧ (o = inr (FailResult, FailResult) ∨ o = inl UnicodeDecodeError))
  ∨ (∃ e, main_post_tests (inl e) ∈ tr ∧ o = inl e)
  ∨ (∃ active inactive,
       thread_tests (inr active) ∈ tr
       ∧ main_post_tests (inr inactive) ∈ tr
       ∧ o = inr (active, inactive))
  ∨ (∃ e inactive,
       thread_tests (inl e) ∈ tr
       ∧ main_post_tests (inr inactive) ∈ tr
       ∧ o = inl (AttributeError "_results")).
Proof.
  intros Hs Ho.
  pose proof (main_follows_run _ _ _ _ Hs) as Hmain.
  pose proof (thread_follows_run_test _ _ _ _ Hs) as Hthread.
  assert (Hin : ∀ l, of_main l = true → l ∈ main_moves tr → l ∈ tr)
    by (intros l Hl; by rewrite elem_of_main_moves).
  rewrite Ho in Hmain. inversion Hmain; subst;
    match goal with
    | H : _ = main_moves tr |- _ => rewrite <- H in Hin
    end.
  - left. exists e. split; [done|]. left. split; [done|].
    apply Hin; [done|elem_here].
  - left. exists e. split; [done|]. right. left. apply Hin; [done|elem_here].
  - left. exists e. split; [done|]. right. right. apply Hin; [done|elem_here].
  - right. left. split; [apply Hin; [done|elem_here]|].
    apply early_exit_outcome.
  - right. right. left. exists e. split; [|done]. apply Hin; [done|elem_here].
  - match goal with
    | H : true = _tests_completed s |- _ => rewrite <- H in Hthread
    end.
    apply path_with_completion in Hthread as (r0 & Htests & _ & Hr).
    rewrite elem_of_thread_moves in Htests by done.
    assert (Hpost : main_post_tests (inr inactive) ∈ tr)
      by (apply Hin; [done|elem_here]).
    do 3 right. rewrite Hr. destruct r0 as [e|active]; [right|left].
    + by exists e, inactive.
    + by exists active, inactive.
Qed.

(** X9: however [run] ends, it ends in one of five ways: with an exception
    out of lines 66-138, that of [normalized_test_description],
    [parse_launch_arguments] or [bind], of [Thread.start] or of
    [LaunchService.run], none of which it catches; through the early exit,
    with the two failing results or the [UnicodeDecodeError] of the summary;
    with the exception the post-shutdown runner raised; with the results
    the two suites returned; or, when the pre-shutdown runner had raised,
    with the [AttributeError] of the unset [self._results]. *)
Theorem run_outcomes
    (parse_launch_arguments : list string → py (list (string * string)))
    (self : _RunnerWorker.t) (tr : list label) (s : state)
    (o : py (result * result)) :
  exec parse_launch_arguments self tr initial = Some s →
  main s = finished o →
  (∃ e, o = inl e ∧ raised_at_launch parse_launch_arguments self e tr)
  ∨ (main_early_exit ∈ tr
     ∧ (o = inr (FailResult, FailResult) ∨ o = inl UnicodeDecodeError))
  ∨ (∃ e, main_post_tests (inl e) ∈ tr ∧ o = inl e)
  ∨ (∃ active inactive,
       thread_tests (inr active) ∈ tr
       ∧ main_post_tests (inr inactive) ∈ tr
       ∧ o = inr (active, inactive))
  ∨ (∃ e inactive,
       thread_tests (inl e) ∈ tr
       ∧ main_post_tests (inr inactive) ∈ tr
       ∧ o = inl (AttributeError "_results")).
Proof. apply run_outcomes_cases. Qed.

Lemma run_outcomes_witness :
  let worker :=
    {| _test_run :=
         {| test_description_function :=
              Function "generate_test_description"
                (ArgSpec [] 0 false false [] []) false (mret ∅);
            bind := fun _ _ _ => mret tt |};
       _launch_file_arguments := [];
       debug := false |} in
  let tr := [main_bind] in
  let o : py (result * result) :=
    inl (TypeError "generate_test_description") in
  run (fun _ => mret []) worker tr = Some o
  ∧ ((∃ e, o = inl e ∧ raised_at_launch (fun _ => mret []) worker e tr)
     ∨ (main_early_exit ∈ tr
        ∧ (o = inr (FailResult, FailResult) ∨ o = inl UnicodeDecodeError))
     ∨ (∃ e, main_post_tests (inl e) ∈ tr ∧ o = inl e)
     ∨ (∃ active inactive,
          thread_tests (inr active) ∈ tr
          ∧ main_post_tests (inr inactive) ∈ tr
          ∧ o = inr (active, inactive))
     ∨ (∃ e inactive,
          thread_tests (inl e) ∈ tr
          ∧ main_post_tests (inr inactive) ∈ tr
          ∧ o = inl (AttributeError "_results"))).
Proof.
  intros worker tr o. split; [vm_compute; reflexivity|].
  let r := eval vm_compute in (exec (fun _ => mret []) worker tr initial) in
  match r with
  | Some ?at_the_end => pose (s := at_the_end)
  end.
  apply (run_outcomes (fun _ => mret []) worker tr s).
  - vm_compute. reflexivity.
  - reflexivity.
Defined.

(** ** Shutdown and the timeout *)

Lemma returned_thread_requested_shutdown parse_launch_arguments self tr s :
  exec parse_launch_arguments self tr initial = Some s →
  thread s = returned → shutdown_requested s = true.
Proof.
  revert tr s.
  apply (exec_ind parse_launch_arguments self
           (fun _ s => thread s = returned → shutdown_requested s = true));
    [done|].
  intros tr s l s' _ IH Hstep. unfold step in Hstep.
  destruct l; repeat (case_match; try discriminate Hstep);
    injection Hstep as <-; cbn; try done; intros Hret; apply IH; congruence.
Qed.

(** X10: the secondary thread calls [shutdown] at most once; it has called
    it exactly when [_run_test] has returned, as the last of its moves, and
    the shutdown is then requested of the supervisor. *)
Theorem shutdown_is_requested_once_at_the_end
    (parse_launch_arguments : list string → py (list (string * string)))
    (self : _RunnerWorker.t) (tr : list label) (s : state) :
  exec parse_launch_arguments self tr initial = Some s →
  occurrences thread_shutdown tr ≤ 1
  ∧ (thread_shutdown ∈ tr ↔ thread s = returned)
  ∧ (thread s = returned →
     shutdown_requested s = true
     ∧ last (thread_moves tr) = Some thread_shutdown).
Proof.
  intros Hs. pose proof (thread_follows_run_test _ _ _ _ Hs) as Hpath.
  pose proof (returned_thread_requested_shutdown _ _ _ _ Hs) as Hreq.
  rewrite <- (occurrences_thread_moves thread_shutdown tr) by done.
  rewrite <- (elem_of_thread_moves thread_shutdown tr) by done.
  inversion Hpath;
    repeat match goal with
           | H : _ = thread_moves tr |- _ => rewrite <- H; clear H
           | H : _ = thread s |- _ => rewrite <- H in *; clear H
           end.
  all: split; [vm_compute; lia|].
  all: split;
    [split; [intros Hin; elem_cases Hin; done
            |try discriminate; intros _; elem_here]|].
  all: try discriminate.
  all: intros _; split; [by apply Hreq|reflexivity].
Qed.

Lemma shutdown_is_requested_once_at_the_end_witness :
  let worker :=
    {| _test_run :=
         {| test_description_function :=
              Function "generate_test_description"
                (ArgSpec ["ready_fn"] 0 false false [] []) false (mret ∅);
            bind := fun _ _ _ => mret tt |};
       _launch_file_arguments := [];
       debug := false |} in
  let tr :=
    [main_bind; main_start_thread; main_enter_service_run; thread_wait]
    ++ replicate 15 tick
    ++ [wait_returns false; thread_print_timeout; thread_shutdown] in
  ∃ s, exec (fun _ => mret []) worker tr initial = Some s
       ∧ occurrences thread_shutdown tr ≤ 1
       ∧ shutdown_requested s = true
       ∧ last (thread_moves tr) = Some thread_shutdown.
Proof.
  intros worker tr.
  let r := eval vm_compute in (exec (fun _ => mret []) worker tr initial) in
  match r with
  | Some ?at_the_end => pose (s := at_the_end)
  end.
  exists s.
  destruct (shutdown_is_requested_once_at_the_end (fun _ => mret []) worker tr s)
    as (Honce & _ & Hlast); [vm_compute; reflexivity|].
  split; [vm_compute; reflexivity|]. split; [exact Honce|].
  apply Hlast. reflexivity.
Defined.

Lemma occurrences_cons l l' tr :
  occurrences l (l' :: tr)
  = (if decide (l' = l) then 1 else 0) + occurrences l tr.
Proof.
  unfold occurrences. rewrite filter_cons. by destruct (decide (l' = l)).
Qed.

(** Time passes with the ticks only. *)
Lemma now_after parse_launch_arguments self tr s s' :
  exec parse_launch_arguments self tr s = Some s' →
  now s' = now s + occurrences tick tr.
Proof.
  revert s. induction tr as [|l tr IH]; intros s Hs.
  { injection Hs as <-. cbn. lia. }
  apply exec_cons_inv in Hs as (s1 & Hstep & Hs).
  rewrite (IH s1 Hs), occurrences_cons. unfold step in Hstep.
  destruct l; destruct (decide _) as [Heq|Hne]; try discriminate Heq;
    try (by destruct Hne);
    repeat (case_match; try discriminate Hstep);
    injection Hstep as <-; cbn; lia.
Qed.

(** The moves of the others leave the secondary thread where it is. *)
Lemma thread_stays parse_launch_arguments self tr s s' :
  exec parse_launch_arguments self tr s = Some s' →
  thread_moves tr = [] →
  thread s' = thread s ∨ thread s = not_started.
Proof.
  revert s. induction tr as [|l tr IH]; intros s Hs Hmoves.
  { injection Hs as <-. by left. }
  apply exec_cons_inv in Hs as (s1 & Hstep & Hs).
  rewrite thread_moves_cons in Hmoves.
  destruct (of_thread l) eqn:Hl; [discriminate Hmoves|].
  destruct (IH s1 Hs Hmoves) as [Hsame|Hidle]; unfold step in Hstep;
    destruct l; try discriminate Hl;
    repeat (case_match; try discriminate Hstep);
    injection Hstep as <-; cbn in *; try (by left); try (by right);
    try discriminate Hidle.
Qed.

(** X11: the wait of line 160 returns [False] only when at least 15 units
    of time have passed since the secondary thread began to wait. *)
Theorem wait_times_out_after_startup_timeout
    (parse_launch_arguments : list string → py (list (string * string)))
    (self : _RunnerWorker.t) (before waiting after : list label) (s : state) :
  exec parse_launch_arguments self
    (before ++ thread_wait :: waiting ++ wait_returns false :: after) initial
    = Some s →
  15 ≤ occurrences tick waiting.
Proof.
  intros Hs.
  apply exec_app_inv in Hs as (s1 & Hs1 & Hs).
  apply exec_cons_inv in Hs as (s2 & Hwait & Hs).
  apply exec_app_inv in Hs as (s3 & Hs3 & Hs).
  apply exec_cons_inv in Hs as (s4 & Hout & _).
  assert (Hs3' : exec parse_launch_arguments self
                   (before ++ thread_wait :: waiting) initial = Some s3).
  { rewrite exec_app, Hs1. cbn [mbind option_bind exec]. by rewrite Hwait. }
  pose proof (thread_follows_run_test _ _ _ _ Hs3') as Hpath.
  rewrite thread_moves_app, thread_moves_cons in Hpath. cbn [of_thread] in Hpath.
  unfold step in Hwait, Hout.
  destruct (thread s1) eqn:Hpc1; try discriminate Hwait.
  injection Hwait as <-.
  destruct (thread s3) eqn:Hpc3; try discriminate Hout.
  assert (Hidle : thread_moves waiting = []).
  { destruct (thread_moves before) as [|l1 [|l2 ?]];
      destruct (thread_moves waiting) as [|l3 ?]; inversion Hpath; done. }
  destruct (thread_stays _ _ _ _ _ Hs3 Hidle) as [Hsame|Hidle'];
    [|discriminate Hidle']. rewrite Hpc3 in Hsame. cbn in Hsame.
  injection Hsame as ->.
  pose proof (now_after _ _ _ _ _ Hs3) as Hnow. cbn in Hnow.
  destruct (bool_decide (now s1 + startup_timeout ≤ now s3)) eqn:Hle;
    [|discriminate Hout].
  apply bool_decide_eq_true in Hle. unfold startup_timeout in Hle. lia.
Qed.

Lemma wait_times_out_after_startup_timeout_witness :
  let waiting :=
    replicate 7 tick
    ++ [on_output {| io_action := 0; text := [x68; x69]%byte |}]
    ++ replicate 9 tick in
  15 ≤ occurrences tick waiting.
Proof.
  intros waiting.
  pose (worker :=
    {| _test_run :=
         {| test_description_function :=
              Function "generate_test_description"
                (ArgSpec ["ready_fn"] 0 false false [] []) false (mret ∅);
            bind := fun _ _ _ => mret tt |};
       _launch_file_arguments := [];
       debug := false |}).
  pose (before := [main_bind; main_start_thread; main_enter_service_run; tick]).
  pose (after := [thread_print_timeout]).
  let r := eval vm_compute in
    (exec (fun _ => mret []) worker
       (before ++ thread_wait :: waiting ++ wait_returns false :: after)
       initial) in
  match r with
  | Some ?at_the_end => pose (s := at_the_end)
  end.
  apply (wait_times_out_after_startup_timeout (fun _ => mret []) worker
           before waiting after s).
  vm_compute. reflexivity.
Defined.

(** X12: in a run in which the readiness callback is never invoked, neither
    suite ever runs, the completion signal stays unset, and [run] can only
    end before the check of line 140, with an exception out of lines
    66-138, or through the early exit, with the two failing results or the
    [UnicodeDecodeError] of the summary. *)
Theorem startup_timeout_ends_in_early_exit
    (parse_launch_arguments : list string → py (list (string * string)))
    (self : _RunnerWorker.t) (tr : list label) (s : state) :
  exec parse_launch_arguments self tr initial = Some s →
  ready_fn ∉ tr →
  (∀ r, thread_tests r ∉ tr)
  ∧ (∀ r, main_post_tests r ∉ tr)
  ∧ _tests_completed s = false
  ∧ (∀ o, main s = finished o →
          (∃ e, o = inl e
                ∧ raised_at_launch parse_launch_arguments self e tr
                ∧ main_check ∉ tr)
          ∨ (main_early_exit ∈ tr
             ∧ (o = inr (FailResult, FailResult)
                ∨ o = inl UnicodeDecodeError))).
Proof.
  intros Hs Hready.
  destruct (startup_timeout_runs_no_suite _ _ tr s Hs Hready)
    as (Htests & Hpost & Hc & _).
  repeat split; try done. intros o Ho.
  destruct (run_outcomes_cases _ _ tr s o Hs Ho)
    as [(e & -> & Hraised)|[[Hexit Hfail]|[(e & Hin & _)
        |[(a & b & Hin & _)|(e & b & Hin & _)]]]];
    try (by right); try (by destruct (Hpost _ Hin));
    try (by destruct (Htests _ Hin)).
  left. exists e. split; [done|]. split; [done|].
  pose proof (main_follows_run _ _ _ _ Hs) as Hmain.
  rewrite Ho in Hmain. rewrite <- (elem_of_main_moves main_check) by done.
  intros Hcheck. unfold raised_at_launch in Hraised.
  rewrite <- (elem_of_main_moves main_bind),
    <- (elem_of_main_moves (thread_start_raises e)),
    <- (elem_of_main_moves (service_run_raises e)) in Hraised by done.
  inversion Hmain; subst;
    match goal with
    | H : _ = main_moves tr |- _ => rewrite <- H in Hcheck, Hraised
    end;
    try (by elem_cases Hcheck).
  all: try match goal with
           | H : service_return _ |- _ => destruct H as [-> | ->]
           end.
  all: destruct Hraised as [[Hb _]|[Hin|Hin]];
    try congruence; elem_cases Hin.
Qed.

Lemma startup_timeout_ends_in_early_exit_witness :
  let worker :=
    {| _test_run :=
         {| test_description_function :=
              Function "generate_test_description"
                (ArgSpec ["ready_fn"] 0 false false [] []) false (mret ∅);
            bind := fun _ _ _ => mret tt |};
       _launch_file_arguments := [];
       debug := false |} in
  let tr :=
    [main_bind; main_start_thread; main_enter_service_run; thread_wait;
     on_exit {| action := 0; process_name := "talker"; returncode := 1 |}]
    ++ replicate 15 tick
    ++ [wait_returns false; thread_print_timeout; thread_shutdown;
        service_run_returns; main_check; main_early_exit] in
  run (fun _ => mret []) worker tr = Some (inr (FailResult, FailResult))
  ∧ (∀ r, thread_tests r ∉ tr)
  ∧ (∀ r, main_post_tests r ∉ tr).
Proof.
  intros worker tr. split; [vm_compute; reflexivity|].
  let r := eval vm_compute in (exec (fun _ => mret []) worker tr initial) in
  match r with
  | Some ?at_the_end => pose (s := at_the_end)
  end.
  destruct (startup_timeout_ends_in_early_exit (fun _ => mret []) worker tr s)
    as (Htests & Hpost & _).
  - vm_compute. reflexivity.
  - intros Hin. apply list_elem_of_In in Hin. vm_compute in Hin.
    intuition discriminate.
  - by split.
Defined.

(** ** The bound suites *)

(** X14: [bind] is called for no suite before the first move of [run], and
    from then on the calls of lines 80-113 stand as they were made: nothing
    binds a suite again.  They are the two calls of these lines when the
    description function returns its context, the launch arguments parse
    and [bind] returns for the pre-shutdown suite. *)
Theorem suites_are_bound_once
    (parse_launch_arguments : list string → py (list (string * string)))
    (self : _RunnerWorker.t) (tr : list label) (s : state) :
  exec parse_launch_arguments self tr initial = Some s →
  bound s =
    match main s with
    | at_bind => []
    | _ => (binding parse_launch_arguments self).1
    end
  ∧ ∀ context parsed_launch_arguments,
      normalized_test_description (_test_run self) = inr context →
      parse_launch_arguments (_launch_file_arguments self)
        = inr parsed_launch_arguments →
      (∀ attributes kwargs,
         bind (_test_run self) pre_shutdown_tests attributes kwargs
         = inr tt) →
      bound s =
        match main s with
        | at_bind => []
        | _ => bind_tests context parsed_launch_arguments
        end.
Proof.
  intros Hs. pose proof (run_binds_both_suites _ _ tr s Hs) as Hbound.
  split; [exact Hbound|].
  intros context parsed_launch_arguments Hcontext Hparsed Hbind.
  rewrite Hbound.
  by rewrite (binding_calls _ _ context parsed_launch_arguments).
Qed.

Lemma suites_are_bound_once_witness :
  let worker :=
    {| _test_run :=
         {| test_description_function :=
              Function "generate_test_description"
                (ArgSpec ["ready_fn"] 0 false false [] []) false
                (mret {[ "dut" := Opaque 1 ]});
            bind := fun _ _ _ => mret tt |};
       _launch_file_arguments := ["mode:=fast"];
       debug := false |} in
  let parse := fun _ : list string => mret [("mode", "fast")] : py _ in
  let tr :=
    [main_bind; main_start_thread; main_enter_service_run; thread_wait;
     ready_fn; wait_returns true; service_stops; main_check] in
  ∃ s, exec parse worker tr initial = Some s
       ∧ bound s = bind_tests {[ "dut" := Opaque 1 ]} [("mode", "fast")].
Proof.
  intros worker parse tr.
  let r := eval vm_compute in (exec parse worker tr initial) in
  match r with
  | Some ?at_the_end => pose (s := at_the_end)
  end.
  exists s. split; [vm_compute; reflexivity|].
  destruct (suites_are_bound_once parse worker tr s) as [_ Hbound].
  - vm_compute. reflexivity.
  - apply (Hbound {[ "dut" := Opaque 1 ]} [("mode", "fast")]); reflexivity.
Defined.

(** ** The orchestrator *)

(** X15: [ApexRunner.run] constructs a worker exactly when there is a run
    definition, never more than one, and what it returns is Python's [None]
    exactly when there is none. *)
Theorem run_returns_None_only_without_definition
    (parse_launch_arguments : list string → py (list (string * string)))
    (self : ApexRunner.t) (schedule : list label) :
  ((ApexRunner.run parse_launch_arguments self schedule).1 = []
   ↔ ApexRunner._test_runs self = [])
  ∧ ((ApexRunner.run parse_launch_arguments self schedule).2 = Some (inr None)
     ↔ ApexRunner._test_runs self = [])
  ∧ length (ApexRunner.run parse_launch_arguments self schedule).1 ≤ 1.
Proof.
  unfold ApexRunner.run. destruct (ApexRunner._test_runs self) as [|first others].
  - cbn. repeat split; lia.
  - cbn [fst snd length]. split; [by split|]. split; [|lia]. split; [|done].
    destruct (run parse_launch_arguments _ schedule) as [[e|results]|];
      discriminate.
Qed.

(** ** A run comes to an end *)

Section Progress.

Variable parse_launch_arguments : list string → py (list (string * string)).
Variable self : _RunnerWorker.t.
Local Abbreviation exec := (exec parse_launch_arguments self).
Local Abbreviation step := (step parse_launch_arguments self).
Local Abbreviation schedule := (schedule parse_launch_arguments self).

(** The secondary thread is started by line 137, and by nothing else. *)
Lemma thread_started_by_run tr s :
  exec tr initial = Some s →
  match main s with
  | at_bind | at_thread_start => thread s = not_started
  | finished _ => True
  | _ => thread s ≠ not_started
  end.
Proof.
  revert tr s.
  apply (exec_ind parse_launch_arguments self
           (fun _ s => match main s with
                       | at_bind | at_thread_start => thread s = not_started
                       | finished _ => True
                       | _ => thread s ≠ not_started
                       end)); [done|].
  intros tr s l s' _ IH Hstep. unfold _RunnerWorker.step in Hstep.
  destruct l; destruct (main s) eqn:Hm; destruct (thread s) eqn:Ht;
    try discriminate Hstep; try done.
  all: repeat match type of Hstep with
       | context [if ?c then _ else _] => destruct c
       | context [match ?r with inl _ => _ | inr _ => _ end] => destruct r
       | context [match ?r with Some _ => _ | None => _ end] => destruct r
       end; try discriminate Hstep.
  all: injection Hstep as <-; cbn; rewrite ?Hm, ?Ht; done.
Qed.

Lemma next_move_is_possible (active inactive : py result) tr s :
  exec tr initial = Some s →
  (∀ o, main s ≠ finished o) →
  ∃ l s', next_move active inactive s = Some l
          ∧ step l s = Some s'
          ∧ moves_left s' < moves_left s
          ∧ unprompted l = true.
Proof.
  intros Hs Hrun.
  pose proof (thread_started_by_run tr s Hs) as Hstart.
  pose proof (returned_thread_requested_shutdown _ _ tr s Hs) as Hreq.
  unfold _RunnerWorker.next_move, _RunnerWorker.step, moves_left, thread_left,
    startup_timeout.
  assert (Hidle : main s = at_thread_start → thread s = not_started)
    by (intros Hm; by rewrite Hm in Hstart).
  assert (Hstarted : main s = in_service_run → thread s ≠ not_started)
    by (intros Hm; by rewrite Hm in Hstart).
  destruct (main s) eqn:Hmain; try (by destruct (Hrun r)).
  - destruct (binding parse_launch_arguments self).2; eexists _, _;
      (split; [reflexivity|]); (split; [reflexivity|]);
      (split; [cbn; rewrite ?Hmain; lia|reflexivity]).
  - rewrite (Hidle eq_refl). eexists _, _.
    split; [reflexivity|]. split; [reflexivity|].
    split; [cbn; destruct (_processes_launched s); lia|reflexivity].
  - eexists _, _. split; [reflexivity|]. split; [reflexivity|].
    split; [cbn; lia|reflexivity].
  - destruct (thread s) eqn:Hpc; [by destruct (Hstarted eq_refl)|..].
    all: try rewrite (Hreq eq_refl).
    all: try destruct active.
    all: destruct (_processes_launched s) eqn:Hlaunched.
    all: try match goal with
         | |- context [bool_decide (?d ≤ ?n)] =>
             destruct (bool_decide (d ≤ n)) eqn:Hd;
             [apply bool_decide_eq_true in Hd
             |apply bool_decide_eq_false in Hd]
         end.
    all: eexists _, _; split; [reflexivity|]; split; [reflexivity|].
    all: cbn; rewrite ?Hmain, ?Hpc, ?Hlaunched.
    all: split; [lia|reflexivity].
  - destruct (_tests_completed s); eexists _, _;
      (split; [reflexivity|]); (split; [reflexivity|]);
      (split; [cbn; lia|reflexivity]).
  - eexists _, _. split; [reflexivity|]. split; [reflexivity|].
    split; [cbn; lia|reflexivity].
  - destruct inactive; eexists _, _;
      (split; [reflexivity|]); (split; [reflexivity|]);
      (split; [cbn; lia|reflexivity]).
  - destruct (_results s); eexists _, _;
      (split; [reflexivity|]); (split; [reflexivity|]);
      (split; [cbn; lia|reflexivity]).
Qed.

Lemma moves_left_0 s : moves_left s = 0 → ∃ o, main s = finished o.
Proof.
  unfold moves_left, startup_timeout. destruct (main s); try lia. by eexists.
Qed.

Lemma schedule_ends (active inactive : py result) fuel : ∀ tr s,
  exec tr initial = Some s →
  moves_left s ≤ fuel →
  ∃ s' o, exec (schedule active inactive fuel s) s = Some s'
          ∧ main s' = finished o
          ∧ Forall (fun l => unprompted l = true)
              (schedule active inactive fuel s).
Proof.
  induction fuel as [|fuel IH]; intros tr s Hs Hfuel.
  { destruct (moves_left_0 s) as [o Ho]; [lia|]. by exists s, o. }
  assert (Hcases : (∃ o, main s = finished o) ∨ (∀ o, main s ≠ finished o)).
  { destruct (main s); try (right; intros o; discriminate). left. by eexists. }
  destruct Hcases as [[o Ho]|Hrun].
  { exists s, o. cbn. unfold _RunnerWorker.next_move. rewrite Ho. by split. }
  destruct (next_move_is_possible active inactive tr s Hs)
    as (l & s1 & Hnext & Hstep & Hless & Hl).
  { exact Hrun. }
  destruct (IH (tr ++ [l]) s1) as (s' & o & Hs' & Ho & Hun).
  { apply exec_snoc. by exists s. }
  { lia. }
  exists s', o. cbn [_RunnerWorker.schedule]. rewrite Hnext, Hstep.
  cbn [_RunnerWorker.exec]. rewrite Hstep. cbn. split; [done|]. split; [done|].
  by constructor.
Qed.

End Progress.

(** X16: from whatever state a run has reached, it comes to an end when it
    is left to itself: with the moves of the two threads, the passing of
    time while the secondary thread waits, and the return of
    [LaunchService.run] once shutdown is requested, and without the
    processes dying or the readiness callback being invoked, [run] returns
    or raises within [moves_left] moves, whatever the two suites answer. *)
Theorem run_comes_to_an_end
    (parse_launch_arguments : list string → py (list (string * string)))
    (self : _RunnerWorker.t) (active inactive : py result)
    (tr : list label) (s : state) :
  exec parse_launch_arguments self tr initial = Some s →
  let rest :=
    schedule parse_launch_arguments self active inactive (moves_left s) s in
  (∃ o, run parse_launch_arguments self (tr ++ rest) = Some o)
  ∧ Forall (fun l => unprompted l = true) rest
  ∧ length rest ≤ moves_left s.
Proof.
  intros Hs rest.
  destruct (schedule_ends parse_launch_arguments self active inactive
              (moves_left s) tr s Hs) as (s' & o & Hs' & Ho & Hun); [lia|].
  split; [|split; [done|]].
  - exists o. unfold run. rewrite exec_app, Hs. cbn. fold rest in Hs'.
    rewrite Hs'. cbn. by rewrite Ho.
  - unfold rest. generalize (moves_left s) as fuel. clear.
    intros fuel. revert s. induction fuel as [|fuel IH]; intros s; [done|].
    cbn [schedule]. destruct (next_move active inactive s) as [l|]; [|cbn; lia].
    destruct (step parse_launch_arguments self l s) as [s1|]; [|cbn; lia].
    cbn [length]. specialize (IH s1). lia.
Qed.

Lemma run_comes_to_an_end_witness :
  let worker :=
    {| _test_run :=
         {| test_description_function :=
              Function "generate_test_description"
                (ArgSpec ["ready_fn"] 0 false false [] []) false (mret ∅);
            bind := fun _ _ _ => mret tt |};
       _launch_file_arguments := [];
       debug := false |} in
  let tr :=
    [main_bind; main_start_thread; main_enter_service_run; thread_wait; tick;
     tick; on_exit {| action := 0; process_name := "talker"; returncode := 1 |}] in
  ∃ s, exec (fun _ => mret []) worker tr initial = Some s
       ∧ run (fun _ => mret []) worker
           (tr ++ schedule (fun _ => mret []) worker (inr (TestResult 1 0 0))
                    (inr (TestResult 1 0 0)) (moves_left s) s)
         = Some (inr (FailResult, FailResult)).
Proof.
  intros worker tr.
  let r := eval vm_compute in (exec (fun _ => mret []) worker tr initial) in
  match r with
  | Some ?where_it_is => pose (s := where_it_is)
  end.
  exists s. split; [vm_compute; reflexivity|].
  destruct (run_comes_to_an_end (fun _ => mret []) worker (inr (TestResult 1 0 0))
              (inr (TestResult 1 0 0)) tr s) as ([o Ho] & _ & _).
  - vm_compute. reflexivity.
  - rewrite Ho. revert Ho. vm_compute. by intros [= <-].
Defined.

(** ** Exceptions out of the first lines *)

(** When lines 66-113 raise, [run] ends with its first move: the thread is
    not started, nothing is printed, and nothing happens but that move, the
    passing of time and calls of the readiness callback. *)
Lemma binding_exception_cases
    (parse_launch_arguments : list string → py (list (string * string)))
    (self : _RunnerWorker.t) (e : exception) (tr : list label) (s : state) :
  (binding parse_launch_arguments self).2 = inl e →
  exec parse_launch_arguments self tr initial = Some s →
  (main s = at_bind ∧ main_bind ∉ tr
   ∨ main s = finished (inl e) ∧ main_bind ∈ tr)
  ∧ thread s = not_started
  ∧ stdout s = []
  ∧ Forall (fun l => l = main_bind ∨ l = ready_fn ∨ l = tick) tr.
Proof.
  intros Hraised. revert tr s.
  apply (exec_ind parse_launch_arguments self
           (fun tr s =>
              (main s = at_bind ∧ main_bind ∉ tr
               ∨ main s = finished (inl e) ∧ main_bind ∈ tr)
              ∧ thread s = not_started
              ∧ stdout s = []
              ∧ Forall (fun l => l = main_bind ∨ l = ready_fn ∨ l = tick) tr)).
  { split; [left; split; [done|apply not_elem_of_nil]|]. by repeat split. }
  intros tr s l s' _ (Hmain & Hthread & Hout & Hall) Hstep.
  unfold step in Hstep. rewrite Forall_app, Forall_singleton.
  rewrite not_elem_of_app, elem_of_app, !list_elem_of_singleton.
  destruct Hmain as [[Hmain Hno]|[Hmain Hin]]; rewrite Hmain, ?Hthread in Hstep.
  all: destruct l; try discriminate Hstep.
  all: rewrite ?Hraised in Hstep; injection Hstep as <-; cbn.
  all: rewrite ?Hmain, ?Hthread, ?Hout.
  all: split; [|by repeat split; eauto].
  all: first [ right; split; [done|]; tauto
             | left; split; [done|]; split; [done|discriminate] ].
Qed.

(** X17: when a call of lines 66-113 raises, the exception of
    [normalized_test_description], of [parse_launch_arguments] or of
    [bind], [run] raises it in its first move: the thread is never started
    and neither suite runs, nothing is printed, no event of a process is
    handled, and nothing happens in such a run but that move, the passing
    of time and calls of the readiness callback. *)
Theorem binding_exception_ends_run
    (parse_launch_arguments : list string → py (list (string * string)))
    (self : _RunnerWorker.t) (e : exception) (tr : list label) (s : state) :
  (binding parse_launch_arguments self).2 = inl e →
  exec parse_launch_arguments self tr initial = Some s →
  (main s = at_bind ∧ main_bind ∉ tr
   ∨ main s = finished (inl e) ∧ main_bind ∈ tr)
  ∧ thread s = not_started
  ∧ stdout s = []
  ∧ Forall (fun l => l = main_bind ∨ l = ready_fn ∨ l = tick) tr
  ∧ (main_bind ∈ tr → run parse_launch_arguments self tr = Some (inl e)).
Proof.
  intros Hraised Hs.
  destruct (binding_exception_cases _ _ e tr s Hraised Hs)
    as (Hmain & Hthread & Hout & Hall).
  do 4 (split; [done|]). intros Hin. unfold run. rewrite Hs. cbn.
  destruct Hmain as [[_ Hno]|[-> _]]; [by destruct Hno|done].
Qed.

Lemma binding_exception_ends_run_witness :
  let worker :=
    {| _test_run :=
         {| test_description_function :=
              Function "generate_test_description"
                (ArgSpec ["ready_fn"] 0 false false [] []) false (mret ∅);
            bind := fun _ _ _ => mret tt |};
       _launch_file_arguments := ["mode"];
       debug := false |} in
  let parse := fun _ : list string =>
    raise (OtherError "RuntimeError") : py (list (string * string)) in
  let tr := [tick; main_bind; ready_fn; tick] in
  run parse worker tr = Some (inl (OtherError "RuntimeError"))
  ∧ ∃ s, exec parse worker tr initial = Some s
         ∧ thread s = not_started ∧ stdout s = [].
Proof.
  intros worker parse tr.
  let r := eval vm_compute in (exec parse worker tr initial) in
  match r with
  | Some ?at_the_end => pose (s := at_the_end)
  end.
  destruct (binding_exception_ends_run parse worker
              (OtherError "RuntimeError") tr s)
    as (_ & Hthread & Hout & _ & Hrun).
  - reflexivity.
  - vm_compute. reflexivity.
  - split; [apply Hrun; apply list_elem_of_further, list_elem_of_here|].
    exists s. split; [vm_compute; reflexivity|]. by split.
Defined.

(** X18: for a function or a bound method, what [validate] refuses, line
    66 cannot call.  When [validate] refuses the function of the first run
    definition, it raises the [TypeError] of the function, and so does
    [run], in its first move and with no suite bound. *)
Theorem refused_function_fails_the_run
    (parse_launch_arguments : list string → py (list (string * string)))
    (name : string) (spec : FullArgSpec) (is_bound_method : bool)
    (body : py (gmap string value))
    (bind : suite → gmap string value → gmap string value → py unit)
    (others : list TestRun) (launch_file_arguments : list string)
    (debug : bool) :
  let func := Function name spec is_bound_method body in
  let first := {| test_description_function := func; bind := bind |} in
  let runner :=
    {| ApexRunner._test_runs := first :: others;
       ApexRunner._launch_file_arguments := launch_file_arguments;
       ApexRunner._debug := debug |} in
  let worker :=
    {| _RunnerWorker._test_run := first;
       _RunnerWorker._launch_file_arguments := launch_file_arguments;
       _RunnerWorker.debug := debug |} in
  accepts_single_argument func = false →
  ApexRunner.validate runner = raise (TypeError name)
  ∧ normalized_test_description first = raise (TypeError name)
  ∧ (ApexRunner.run parse_launch_arguments runner [main_bind]).2
    = Some (raise (TypeError name))
  ∧ bound <$> step parse_launch_arguments worker main_bind initial = Some [].
Proof.
  intros func first runner worker Hno.
  assert (Hcalled : normalized_test_description first = raise (TypeError name)).
  { unfold normalized_test_description. cbn. cbn in Hno. by rewrite Hno. }
  assert (Hbinding : binding parse_launch_arguments worker
                     = ([], inl (TypeError name))).
  { unfold binding. cbn [_test_run worker]. by rewrite Hcalled. }
  split; [|split; [done|split]].
  - pose proof (getcallargs_accepts func) as Hcall.
    unfold ApexRunner.validate. cbn [ApexRunner._test_runs runner
      ApexRunner.for_in test_description_function first].
    destruct (getcallargs func) as [e|bound_names].
    + destruct Hcall as [_ ->]. reflexivity.
    + congruence.
  - assert (Hrun : run parse_launch_arguments worker [main_bind]
                   = Some (inl (TypeError name))).
    { unfold run. cbn [exec step main initial]. by rewrite Hbinding. }
    unfold ApexRunner.run. cbn [ApexRunner._test_runs runner snd].
    change (run parse_launch_arguments _ [main_bind])
      with (run parse_launch_arguments worker [main_bind]).
    by rewrite Hrun.
  - unfold step. cbn [main initial]. by rewrite Hbinding.
Qed.

Lemma refused_function_fails_the_run_witness :
  let zero :=
    Function "generate_test_description" (ArgSpec [] 0 false false [] [])
      false (mret ∅) in
  let first :=
    {| test_description_function := zero; bind := fun _ _ _ => mret tt |} in
  let runner :=
    {| ApexRunner._test_runs := [first];
       ApexRunner._launch_file_arguments := [];
       ApexRunner._debug := false |} in
  ApexRunner.validate runner = raise (TypeError "generate_test_description")
  ∧ (ApexRunner.run (fun _ => mret []) runner [main_bind]).2
    = Some (raise (TypeError "generate_test_description")).
Proof.
  intros zero first runner.
  destruct (refused_function_fails_the_run (fun _ => mret [])
              "generate_test_description" (ArgSpec [] 0 false false [] [])
              false (mret ∅) (fun _ _ _ => mret tt) [] [] false)
    as (Hvalidate & _ & Hrun & _); [reflexivity|].
  split; [exact Hvalidate|exact Hrun].
Defined.
